(** * Verification-gated chat requests: a shallow embedding

    The development models the request handlers of
    [backend/controllers/chatRequestController.js] and of the message
    controller ([sendMessage], [createConversation]) over an explicit
    database state, together with the Mongoose schemas of [Item] and
    [ChatRequest] that decide what a stored document looks like. *)

From Stdlib Require Import List Bool Arith Lia String Ascii.
Import ListNotations.
Open Scope string_scope.
Open Scope list_scope.
Open Scope nat_scope.

(** ** JavaScript strings

    Strings are sequences of code units in the range U+0000..U+00FF; on
    that range [String.prototype.toLowerCase] and [String.prototype.trim]
    act as defined below. *)

Module JS.

(** Code units with a lower-case mapping: A..Z and the Latin-1 capitals
    U+00C0..U+00DE, the multiplication sign U+00D7 excepted. *)
Definition isUpper (c : ascii) : bool :=
  let n := nat_of_ascii c in
  ((65 <=? n) && (n <=? 90))
  || ((192 <=? n) && (n <=? 222) && negb (n =? 215)).

Definition lowerChar (c : ascii) : ascii :=
  if isUpper c then ascii_of_nat (nat_of_ascii c + 32) else c.

(** WhiteSpace and LineTerminator code units: TAB, LF, VT, FF, CR, SP
    and NBSP. *)
Definition isWhiteSpace (c : ascii) : bool :=
  let n := nat_of_ascii c in
  ((9 <=? n) && (n <=? 13)) || (n =? 32) || (n =? 160).

Fixpoint toLowerCase (s : string) : string :=
  match s with
  | EmptyString => EmptyString
  | String c s' => String (lowerChar c) (toLowerCase s')
  end.

Fixpoint trimStart (s : string) : string :=
  match s with
  | EmptyString => EmptyString
  | String c s' => if isWhiteSpace c then trimStart s' else s
  end.

Fixpoint trimEnd (s : string) : string :=
  match s with
  | EmptyString => EmptyString
  | String c s' =>
      match trimEnd s' with
      | EmptyString => if isWhiteSpace c then EmptyString else String c EmptyString
      | t => String c t
      end
  end.

Definition trim (s : string) : string := trimEnd (trimStart s).

(** Truthiness of a string value: only the empty string is falsy. *)
Definition truthy (s : string) : bool :=
  match s with
  | EmptyString => false
  | String _ _ => true
  end.

End JS.

(** ** Data model *)

(** Mongo object identifiers. Fresh ones are drawn from a counter kept in
    the database state. *)
Definition ObjectId := nat.

(** [models/Item.js], the fields the handlers read. Both verification
    fields are strings with default [''] in the schema. *)
Module Item.
Record t := mk {
  _id : ObjectId;
  user : ObjectId;
  verificationQuestion : string;
  verificationAnswer : string
}.
End Item.

Inductive Status := pending | approved | declined.

Definition Status_eqb (a b : Status) : bool :=
  match a, b with
  | pending, pending | approved, approved | declined, declined => true
  | _, _ => false
  end.

(** The ChatRequest model ([chatRequestSchema]). *)
Module ChatRequest.
Record t := mk {
  _id : ObjectId;
  item : ObjectId;
  requester : ObjectId;
  owner : ObjectId;
  verificationQuestion : string;
  correctAnswer : string;
  submittedAnswer : option string;
  answerCorrect : bool;
  status : Status;
  conversation : option ObjectId
}.

(** The setters installed by [lowercase: true, trim: true]; Mongoose
    runs the setters of a path last-declared first. *)
Definition setLowercaseTrim (v : string) : string :=
  JS.toLowerCase (JS.trim v).

Definition set_submittedAnswer (v : string) (d : t) : t :=
  mk (_id d) (item d) (requester d) (owner d) (verificationQuestion d)
     (correctAnswer d) (Some (setLowercaseTrim v)) (answerCorrect d)
     (status d) (conversation d).

Definition set_answerCorrect (v : bool) (d : t) : t :=
  mk (_id d) (item d) (requester d) (owner d) (verificationQuestion d)
     (correctAnswer d) (submittedAnswer d) v (status d) (conversation d).

Definition set_status (v : Status) (d : t) : t :=
  mk (_id d) (item d) (requester d) (owner d) (verificationQuestion d)
     (correctAnswer d) (submittedAnswer d) (answerCorrect d) v
     (conversation d).

Definition set_conversation (v : ObjectId) (d : t) : t :=
  mk (_id d) (item d) (requester d) (owner d) (verificationQuestion d)
     (correctAnswer d) (submittedAnswer d) (answerCorrect d) (status d)
     (Some v).

(** The paths marked [required: true] whose value fails the check; a
    required string must be non-empty. The three references are always
    supplied by the one caller of [create]. *)
Definition failedPaths (d : t) : list string :=
  (if JS.truthy (verificationQuestion d) then [] else ["verificationQuestion"])
  ++ (if JS.truthy (correctAnswer d) then [] else ["correctAnswer"]).

Definition pathMessage (p : string) : string :=
  (p ++ ": Path `" ++ p ++ "` is required.")%string.

Definition validationMessage (ps : list string) : string :=
  ("ChatRequest validation failed: " ++ String.concat ", " (map pathMessage ps))%string.
End ChatRequest.

(** Modelled from the spec: the Conversation model (models/Conversation.js)
    is the spec's Channel, "a two-party, item-scoped conversation
    container"; the fields are those the two controllers read and write. *)
Module Conversation.
Record t := mk {
  _id : ObjectId;
  participants : list ObjectId;
  item : option ObjectId;
  lastMessage : option ObjectId
}.

Definition set_lastMessage (v : ObjectId) (d : t) : t :=
  mk (_id d) (participants d) (item d) (Some v).
End Conversation.

(** Modelled from the spec: the Message model (models/Message.js), the
    payload of "appendMessage(channelId, senderId, content)". *)
Module Message.
Record t := mk {
  _id : ObjectId;
  conversation : ObjectId;
  sender : ObjectId;
  content : string
}.
End Message.

(** The notification types 'chat_request', 'chat_approved', 'chat_declined'
    and 'message'. *)
Inductive NotificationType :=
  n_chat_request | n_chat_approved | n_chat_declined | n_message.

(** Modelled from the spec: the notification helper
    (utils/notificationHelper.js), "emit(userId, eventType, payload)",
    fire-and-forget; a notification is appended to a log. The addressee of
    a message notification is the result of an [Array.prototype.find] and
    may be undefined. *)
Module Notification.
Record t := mk {
  user : option ObjectId;
  type : NotificationType;
  relatedChatRequest : option ObjectId;
  relatedConversation : option ObjectId
}.
End Notification.

(** The database: one list per collection, in insertion order, and the
    counter of object identifiers. *)
Record DB := mkDB {
  items : list Item.t;
  chatRequests : list ChatRequest.t;
  conversations : list Conversation.t;
  messages : list Message.t;
  notifications : list Notification.t;
  nextId : ObjectId
}.

(** ** Responses *)

Inductive Body :=
| JMessage (message : string)
| JAnswer (success : bool) (message : string) (chatRequest : ObjectId)
| JApproved (message : string) (conversation : ObjectId)
| JSent (id : ObjectId) (content : string) (senderId : ObjectId)
| JConversation (conversation : Conversation.t).

Record Response := res { statusCode : nat; json : Body }.

(** ** Collections *)

Section Collection.

Variable Doc : Type.
Variable docId : Doc -> ObjectId.

(** [Model.findById]. *)
Definition findById (i : ObjectId) (c : list Doc) : option Doc :=
  find (fun d => docId d =? i) c.

(** [doc.save()] on a document read from the collection: the stored
    document with the same [_id] is replaced. *)
Fixpoint saveDoc (d : Doc) (c : list Doc) : list Doc :=
  match c with
  | [] => []
  | x :: c' => if docId x =? docId d then d :: c' else x :: saveDoc d c'
  end.

End Collection.

Arguments findById {Doc} docId i c.
Arguments saveDoc {Doc} docId d c.

(** [Array.prototype.includes] on an array of identifiers. *)
Definition includes (l : list ObjectId) (x : ObjectId) : bool :=
  existsb (Nat.eqb x) l.

(** Equality of an optional reference with a query value. *)
Definition refEqb (a b : option ObjectId) : bool :=
  match a, b with
  | Some x, Some y => x =? y
  | None, None => true
  | _, _ => false
  end.

Definition withChatRequests (db : DB) (c : list ChatRequest.t) : DB :=
  mkDB (items db) c (conversations db) (messages db) (notifications db) (nextId db).

Definition withConversations (db : DB) (c : list Conversation.t) : DB :=
  mkDB (items db) (chatRequests db) c (messages db) (notifications db) (nextId db).

Definition withMessages (db : DB) (c : list Message.t) : DB :=
  mkDB (items db) (chatRequests db) (conversations db) c (notifications db) (nextId db).

Definition withNextId (db : DB) (n : ObjectId) : DB :=
  mkDB (items db) (chatRequests db) (conversations db) (messages db) (notifications db) n.

Definition createNotification (n : Notification.t) (db : DB) : DB :=
  mkDB (items db) (chatRequests db) (conversations db) (messages db)
       (notifications db ++ [n]) (nextId db).

(** [ChatRequest.create]: the setters run on assignment, the defaults fill
    [conversation], validation runs before the insert and throws on a
    failed path. *)
Definition ChatRequest_create (db : DB) (item requester owner : ObjectId)
    (verificationQuestion correctAnswer submittedAnswer : string)
    (answerCorrect : bool) (status : Status) : string + DB * ChatRequest.t :=
  let d := ChatRequest.mk (nextId db) item requester owner verificationQuestion
             (ChatRequest.setLowercaseTrim correctAnswer)
             (Some (ChatRequest.setLowercaseTrim submittedAnswer))
             answerCorrect status None in
  match ChatRequest.failedPaths d with
  | [] => inr (withNextId (withChatRequests db (chatRequests db ++ [d])) (S (nextId db)), d)
  | ps => inl (ChatRequest.validationMessage ps)
  end.

Definition Conversation_create (db : DB) (participants : list ObjectId)
    (item : option ObjectId) : DB * Conversation.t :=
  let d := Conversation.mk (nextId db) participants item None in
  (withNextId (withConversations db (conversations db ++ [d])) (S (nextId db)), d).

Definition Message_create (db : DB) (conversation sender : ObjectId)
    (content : string) : DB * Message.t :=
  let d := Message.mk (nextId db) conversation sender content in
  (withNextId (withMessages db (messages db ++ [d])) (S (nextId db)), d).

(** ** chatRequestController.js *)

(** The query of [submitVerificationAnswer]: item, requester and owner. *)
Definition byTriple (i r o : ObjectId) (cr : ChatRequest.t) : bool :=
  (ChatRequest.item cr =? i) && (ChatRequest.requester cr =? r)
  && (ChatRequest.owner cr =? o).

(** The expression [answer.toLowerCase().trim()] of lines 38, 47 and 52. *)
Definition normalize (answer : string) : string :=
  JS.trim (JS.toLowerCase answer).

(** Line 38: the evaluation of a submitted answer. *)
Definition evaluate (answer : string) (item : Item.t) : bool :=
  String.eqb (normalize answer) (Item.verificationAnswer item).

Definition submitVerificationAnswer (db : DB) (user itemId : ObjectId)
    (answer : string) : DB * Response :=
  match findById Item._id itemId (items db) with
  | None => (db, res 404 (JMessage "Item not found"))
  | Some item =>
    if negb (JS.truthy (Item.verificationQuestion item)) then
      (db, res 400 (JMessage "This item does not have a verification question"))
    else
      let requesterId := user in
      let ownerId := Item.user item in
      if requesterId =? ownerId then
        (db, res 400 (JMessage "You cannot request chat with yourself"))
      else
        let found := find (byTriple itemId requesterId ownerId) (chatRequests db) in
        let answerCorrect := evaluate answer item in
        let saved :=
          match found with
          | None =>
              ChatRequest_create db itemId requesterId ownerId
                (Item.verificationQuestion item) (Item.verificationAnswer item)
                (normalize answer) answerCorrect
                (if answerCorrect then pending else pending)
          | Some chatRequest =>
              let chatRequest :=
                ChatRequest.set_answerCorrect answerCorrect
                  (ChatRequest.set_submittedAnswer (normalize answer) chatRequest) in
              inr (withChatRequests db
                     (saveDoc ChatRequest._id chatRequest (chatRequests db)),
                   chatRequest)
          end in
        match saved with
        | inl error => (db, res 500 (JMessage error))
        | inr (db1, chatRequest) =>
            let db2 :=
              if answerCorrect then
                createNotification
                  (Notification.mk (Some ownerId) n_chat_request
                     (Some (ChatRequest._id chatRequest)) None) db1
              else db1 in
            (db2, res 200
               (JAnswer answerCorrect
                  (if answerCorrect
                   then "Answer correct! Chat request sent to owner for approval"
                   else "Incorrect answer. Please try again.")
                  (ChatRequest._id chatRequest)))
        end
  end.

(** The query of [approveChatRequest] on conversations:
    [participants: { $all: [a, b] }, item]. *)
Definition byParticipantsItem (a b : ObjectId) (i : option ObjectId)
    (c : Conversation.t) : bool :=
  includes (Conversation.participants c) a
  && includes (Conversation.participants c) b
  && refEqb (Conversation.item c) i.

Definition approveChatRequest (db : DB) (user chatRequestId : ObjectId)
    : DB * Response :=
  match findById ChatRequest._id chatRequestId (chatRequests db) with
  | None => (db, res 404 (JMessage "Chat request not found"))
  | Some chatRequest =>
    if negb (ChatRequest.owner chatRequest =? user) then
      (db, res 403 (JMessage "Not authorized"))
    else if negb (ChatRequest.answerCorrect chatRequest) then
      (db, res 400 (JMessage "Answer was not correct"))
    else
      let '(db1, conversation) :=
        match find (byParticipantsItem (ChatRequest.requester chatRequest)
                      (ChatRequest.owner chatRequest)
                      (Some (ChatRequest.item chatRequest)))
                   (conversations db) with
        | Some conversation => (db, conversation)
        | None =>
            Conversation_create db
              [ChatRequest.requester chatRequest; ChatRequest.owner chatRequest]
              (Some (ChatRequest.item chatRequest))
        end in
      let chatRequest :=
        ChatRequest.set_conversation (Conversation._id conversation)
          (ChatRequest.set_status approved chatRequest) in
      let db2 := withChatRequests db1
                   (saveDoc ChatRequest._id chatRequest (chatRequests db1)) in
      let db3 := createNotification
                   (Notification.mk (Some (ChatRequest.requester chatRequest))
                      n_chat_approved None (Some (Conversation._id conversation)))
                   db2 in
      (db3, res 200 (JApproved "Chat request approved" (Conversation._id conversation)))
  end.

Definition declineChatRequest (db : DB) (user chatRequestId : ObjectId)
    : DB * Response :=
  match findById ChatRequest._id chatRequestId (chatRequests db) with
  | None => (db, res 404 (JMessage "Chat request not found"))
  | Some chatRequest =>
    if negb (ChatRequest.owner chatRequest =? user) then
      (db, res 403 (JMessage "Not authorized"))
    else
      let chatRequest := ChatRequest.set_status declined chatRequest in
      let db1 := withChatRequests db
                   (saveDoc ChatRequest._id chatRequest (chatRequests db)) in
      let db2 := createNotification
                   (Notification.mk (Some (ChatRequest.requester chatRequest))
                      n_chat_declined None None) db1 in
      (db2, res 200 (JMessage "Chat request declined"))
  end.

(** ** The message controller *)

(** [populate('item')]: the referenced item, or null. *)
Definition populateItem (db : DB) (c : Conversation.t) : option Item.t :=
  match Conversation.item c with
  | Some i => findById Item._id i (items db)
  | None => None
  end.

(** The query of the gate in [sendMessage]: item, requester and status. *)
Definition byItemRequesterStatus (i r : ObjectId) (s : Status)
    (cr : ChatRequest.t) : bool :=
  (ChatRequest.item cr =? i) && (ChatRequest.requester cr =? r)
  && Status_eqb (ChatRequest.status cr) s.

(** Lines 105-117 of [sendMessage]: [true] when the handler goes on to
    create the message, [false] when it answers 403. *)
Definition verificationGate (db : DB) (user : ObjectId)
    (item : option Item.t) : bool :=
  match item with
  | Some it =>
      if JS.truthy (Item.verificationQuestion it) then
        match find (byItemRequesterStatus (Item._id it) user approved)
                   (chatRequests db) with
        | Some _ => true
        | None => false
        end
      else true
  | None => true
  end.

Definition notVerified : string :=
  "Chat verification not approved. Answer the verification question first.".

(** Creation of a message in a conversation, shared by the two handlers:
    [Message.create], the update of [lastMessage], and the notification of
    the addressee. *)
Definition postMessage (db : DB) (conversation : Conversation.t)
    (sender : ObjectId) (recipient : option ObjectId) (content : string)
    : DB * Message.t :=
  let '(db1, message) :=
    Message_create db (Conversation._id conversation) sender content in
  let conversation := Conversation.set_lastMessage (Message._id message) conversation in
  let db2 := withConversations db1
               (saveDoc Conversation._id conversation (conversations db1)) in
  let db3 := createNotification
               (Notification.mk recipient n_message None
                  (Some (Conversation._id conversation))) db2 in
  (db3, message).

Definition sendMessage (db : DB) (user conversationId : ObjectId)
    (content : string) : DB * Response :=
  match findById Conversation._id conversationId (conversations db) with
  | None => (db, res 404 (JMessage "Conversation not found"))
  | Some conversation =>
    if negb (includes (Conversation.participants conversation) user) then
      (db, res 403 (JMessage "Not authorized"))
    else if negb (verificationGate db user (populateItem db conversation)) then
      (db, res 403 (JMessage notVerified))
    else
      let recipient :=
        find (fun p => negb (p =? user)) (Conversation.participants conversation) in
      let '(db1, message) := postMessage db conversation user recipient content in
      (db1, res 201 (JSent (Message._id message) (Message.content message)
                       (Message.sender message)))
  end.

Definition createConversation (db : DB) (user recipientId : ObjectId)
    (itemId : option ObjectId) (message : option string) : DB * Response :=
  if recipientId =? user then
    (db, res 400 (JMessage "Cannot create conversation with yourself"))
  else
    let '(db1, conversation) :=
      match find (byParticipantsItem user recipientId itemId) (conversations db) with
      | Some conversation => (db, conversation)
      | None => Conversation_create db [user; recipientId] itemId
      end in
    match message with
    | Some content =>
        if JS.truthy content then
          let '(db2, newMessage) :=
            postMessage db1 conversation user (Some recipientId) content in
          (db2, res 201 (JConversation
                           (Conversation.set_lastMessage (Message._id newMessage)
                              conversation)))
        else (db1, res 201 (JConversation conversation))
    | None => (db1, res 201 (JConversation conversation))
    end.

(** ** Requests and runs *)

(** A request carries the authenticated caller first. *)
Inductive Request :=
| SubmitAnswer (user itemId : ObjectId) (answer : string)
| Approve (user chatRequestId : ObjectId)
| Decline (user chatRequestId : ObjectId)
| SendMessage (user conversationId : ObjectId) (content : string)
| CreateConversation (user recipientId : ObjectId) (itemId : option ObjectId)
    (message : option string).

Definition handle (db : DB) (r : Request) : DB * Response :=
  match r with
  | SubmitAnswer u i a => submitVerificationAnswer db u i a
  | Approve u c => approveChatRequest db u c
  | Decline u c => declineChatRequest db u c
  | SendMessage u c m => sendMessage db u c m
  | CreateConversation u r i m => createConversation db u r i m
  end.

(** The state after a sequence of requests, served one after the other. *)
Fixpoint run (db : DB) (rs : list Request) : DB :=
  match rs with
  | [] => db
  | r :: rs' => run (fst (handle db r)) rs'
  end.

(** The responses of a sequence of requests. *)
Fixpoint responses (db : DB) (rs : list Request) : list Response :=
  match rs with
  | [] => []
  | r :: rs' => snd (handle db r) :: responses (fst (handle db r)) rs'
  end.

(** A database with the given items, no chat request, no conversation and
    no message yet. *)
Definition freshDB (its : list Item.t) (n : ObjectId) : DB :=
  mkDB its [] [] [] [] n.

(** ** The error responses of the chat request controller *)

Definition notConfigured : Response :=
  res 400 (JMessage "This item does not have a verification question").
Definition selfContact : Response :=
  res 400 (JMessage "You cannot request chat with yourself").
Definition answerNotVerified : Response :=
  res 400 (JMessage "Answer was not correct").

(** ** Predicates of the statements *)

(** The ledger is well formed when its records have distinct identifiers,
    all drawn from the counter. *)
Definition wfLedger (db : DB) : Prop :=
  NoDup (map ChatRequest._id (chatRequests db))
  /\ Forall (fun cr => ChatRequest._id cr < nextId db) (chatRequests db).

(** The relation between status and conversation that the handlers keep. *)
Definition statusChannel (cr : ChatRequest.t) : Prop :=
  (ChatRequest.status cr = approved -> ChatRequest.conversation cr <> None)
  /\ (ChatRequest.status cr = pending -> ChatRequest.conversation cr = None).

(** No record is a request of the owner of its item. *)
Definition noSelfRequest (db : DB) : Prop :=
  forall cr it,
    In cr (chatRequests db) ->
    findById Item._id (ChatRequest.item cr) (items db) = Some it ->
    ChatRequest.requester cr <> Item.user it.

(** An approved record of requester [u] on item [i], whatever its owner
    and conversation. *)
Definition approvedFor (db : DB) (i u : ObjectId) : Prop :=
  exists cr,
    In cr (chatRequests db) /\ ChatRequest.item cr = i
    /\ ChatRequest.requester cr = u /\ ChatRequest.status cr = approved.

(** The condition under which [sendMessage] lets a participant write to a
    conversation. *)
Definition gateOpen (db : DB) (user : ObjectId) (conv : Conversation.t) : Prop :=
  match populateItem db conv with
  | Some it =>
      JS.truthy (Item.verificationQuestion it) = false
      \/ approvedFor db (Item._id it) user
  | None => True
  end.

(** The number of conversations that the lookup of [approveChatRequest]
    matches for requester [r], owner [o] and item [i]. *)
Definition countChannels (db : DB) (r o i : ObjectId) : nat :=
  List.length (filter (byParticipantsItem r o (Some i)) (conversations db)).

(** The number of records of the triple of item [i], requester [r] and
    owner [o]. *)
Definition countRequests (db : DB) (i r o : ObjectId) : nat :=
  List.length (filter (byTriple i r o) (chatRequests db)).

(** At most one record per triple of item, requester and owner. *)
Definition uniqueTriples (db : DB) : Prop :=
  forall i r o, countRequests db i r o <= 1.

(** The record that a re-submission writes over [cr]: the submitted
    answer and its evaluation are new, the other fields are those of [cr]. *)
Definition resubmitted (cr : ChatRequest.t) (answer : string) (item : Item.t)
    : ChatRequest.t :=
  ChatRequest.mk (ChatRequest._id cr) (ChatRequest.item cr)
    (ChatRequest.requester cr) (ChatRequest.owner cr)
    (ChatRequest.verificationQuestion cr) (ChatRequest.correctAnswer cr)
    (Some (normalize answer)) (evaluate answer item)
    (ChatRequest.status cr) (ChatRequest.conversation cr).

(** The submissions of one requester on one item, one per answer. *)
Definition submissions (user itemId : ObjectId) (answers : list string)
    : list Request :=
  map (SubmitAnswer user itemId) answers.

(** ** The effect of a request on the ledger *)

(** The ways a request rewrites a stored record. *)
Inductive Update : Request -> ChatRequest.t -> ChatRequest.t -> Prop :=
| UpdSubmit u i a s b cr :
    Update (SubmitAnswer u i a) cr
      (ChatRequest.mk (ChatRequest._id cr) (ChatRequest.item cr)
         (ChatRequest.requester cr) (ChatRequest.owner cr)
         (ChatRequest.verificationQuestion cr) (ChatRequest.correctAnswer cr)
         (Some s) b (ChatRequest.status cr) (ChatRequest.conversation cr))
| UpdApprove c cr :
    ChatRequest.answerCorrect cr = true ->
    Update (Approve (ChatRequest.owner cr) (ChatRequest._id cr)) cr
      (ChatRequest.set_conversation c (ChatRequest.set_status approved cr))
| UpdDecline cr :
    Update (Decline (ChatRequest.owner cr) (ChatRequest._id cr)) cr
      (ChatRequest.set_status declined cr).

(** The effect of a request on the ledger: none, the rewriting of one
    record, or the insertion of a new pending record by a requester who
    is not the owner of the item. *)
Inductive LedgerStep (db : DB) (r : Request) (db' : DB) : Prop :=
| StepSame :
    chatRequests db' = chatRequests db -> LedgerStep db r db'
| StepUpdate cr cr' :
    In cr (chatRequests db) -> Update r cr cr' ->
    chatRequests db' = saveDoc ChatRequest._id cr' (chatRequests db) ->
    LedgerStep db r db'
| StepInsert cr' item a :
    chatRequests db' = chatRequests db ++ [cr'] ->
    ChatRequest._id cr' = nextId db ->
    nextId db' = S (nextId db) ->
    ChatRequest.status cr' = pending ->
    ChatRequest.conversation cr' = None ->
    findById Item._id (ChatRequest.item cr') (items db) = Some item ->
    ChatRequest.requester cr' <> Item.user item ->
    r = SubmitAnswer (ChatRequest.requester cr') (ChatRequest.item cr') a ->
    find (byTriple (ChatRequest.item cr') (ChatRequest.requester cr')
            (ChatRequest.owner cr')) (chatRequests db) = None ->
    LedgerStep db r db'.

(** ** Auxiliary definitions of the proofs *)

(** A string that is empty or starts with a code unit that is not white
    space. *)
Definition headClean (s : string) : Prop :=
  match s with
  | EmptyString => True
  | String c _ => JS.isWhiteSpace c = false
  end.

(** The notification of the owner on a correct answer touches the log only. *)
Definition notifyOwner (correct : bool) (owner chatRequest : ObjectId) (db : DB) : DB :=
  if correct then
    createNotification
      (Notification.mk (Some owner) n_chat_request (Some chatRequest) None) db
  else db.

(** ** Scenario of the specification: question "What color?", answer "blue" *)

Definition owner0 : ObjectId := 1.
Definition requester0 : ObjectId := 2.
Definition item0 : Item.t := Item.mk 10 owner0 "What color?" "blue".
Definition db0 : DB := freshDB [item0] 100.

(** An item without a verification question, and an item whose question
    is set while its answer is empty. *)
Definition itemOpen : Item.t := Item.mk 11 owner0 "" "".
Definition itemNoAnswer : Item.t := Item.mk 12 owner0 "What color?" "".
Definition db1 : DB := freshDB [item0; itemOpen; itemNoAnswer] 100.

(** Scenario A of the specification after the approval: the requester
    answered "BLUE " and the owner approved. *)
Definition dbApproved : DB :=
  run db0 [SubmitAnswer requester0 10 "BLUE "; Approve owner0 100].

Definition crApproved : ChatRequest.t :=
  ChatRequest.mk 100 10 requester0 owner0 "What color?" "blue"
    (Some "blue") true approved (Some 101).

(** The requester of scenario A opens a second conversation on the same
    item, with a third user. *)
Definition dbSecondChannel : DB :=
  run dbApproved [CreateConversation requester0 3 (Some 10) None].

(** * Further handlers and schema parts *)

(** ** The Item schema: [verificationAnswer] *)

(** The setters of [verificationAnswer] in [models/Item.js], declared
    [lowercase: true, trim: true] as in the ChatRequest schema. *)
Definition Item_setLowercaseTrim (v : string) : string :=
  JS.toLowerCase (JS.trim v).

(** Assignment of an owner's raw answer to the path [verificationAnswer]. *)
Definition Item_set_verificationAnswer (raw : string) (it : Item.t) : Item.t :=
  Item.mk (Item._id it) (Item.user it) (Item.verificationQuestion it)
    (Item_setLowercaseTrim raw).

(** ** [getChatRequestStatus] *)

(** The body of the answer; the two fields that the first branch leaves
    out are [None] there. *)
Module StatusView.
Record t := mk {
  hasRequest : bool;
  answered : bool;
  answerCorrect : option bool;
  status : option Status
}.
End StatusView.

(** The query of [getChatRequestStatus]: item and requester. *)
Definition byItemRequester (i r : ObjectId) (cr : ChatRequest.t) : bool :=
  (ChatRequest.item cr =? i) && (ChatRequest.requester cr =? r).

Definition getChatRequestStatus (db : DB) (user itemId : ObjectId) : StatusView.t :=
  let requesterId := user in
  match find (byItemRequester itemId requesterId) (chatRequests db) with
  | None => StatusView.mk false false None None
  | Some chatRequest =>
      StatusView.mk true
        (match ChatRequest.submittedAnswer chatRequest with
         | Some _ => true
         | None => false
         end)
        (Some (ChatRequest.answerCorrect chatRequest))
        (Some (ChatRequest.status chatRequest))
  end.

(** ** [getIncomingChatRequests] *)

(** Modelled from the spec: the User model (models/User.js), of which
    [populate('requester', 'name email')] reads the name and the e-mail. *)
Module User.
Record t := mk {
  _id : ObjectId;
  name : string;
  email : string
}.
End User.

(** The values of the path [type] of the Item schema. *)
Inductive ItemType := lost | found.

(** An element of the answer of [getIncomingChatRequests]; [createdAt] is
    left out, the database carries no clock. *)
Module IncomingView.
Record t := mk {
  id : ObjectId;
  requesterName : string;
  requesterEmail : string;
  requesterId : ObjectId;
  itemTitle : string;
  itemType : ItemType;
  submittedAnswer : option string;
  status : Status
}.
End IncomingView.

(** [Array.prototype.map] with a callback that may throw. *)
Fixpoint mapOrThrow {A B : Type} (f : A -> option B) (l : list A) : option (list B) :=
  match l with
  | [] => Some []
  | x :: l' =>
      match f x with
      | None => None
      | Some y =>
          match mapOrThrow f l' with
          | None => None
          | Some ys => Some (y :: ys)
          end
      end
  end.

Section Incoming.

(** The users, and the two paths of an item that [Item.t] leaves out. *)
Variable users : list User.t.
Variable title : Item.t -> string.
Variable type : Item.t -> ItemType.

(** The query of [getIncomingChatRequests]: owner and [answerCorrect: true]. *)
Definition byOwnerCorrect (o : ObjectId) (cr : ChatRequest.t) : bool :=
  (ChatRequest.owner cr =? o) && ChatRequest.answerCorrect cr.

(** The callback of [chatRequests.map]: reading [name] or [title] of a
    reference that [populate] left null throws. *)
Definition formatIncoming (db : DB) (cr : ChatRequest.t) : option IncomingView.t :=
  match findById User._id (ChatRequest.requester cr) users,
        findById Item._id (ChatRequest.item cr) (items db) with
  | Some requester, Some item =>
      Some (IncomingView.mk (ChatRequest._id cr) (User.name requester)
              (User.email requester) (User._id requester) (title item) (type item)
              (ChatRequest.submittedAnswer cr) (ChatRequest.status cr))
  | _, _ => None
  end.

(** The records are stored in the order of their creation, so the sort by
    [createdAt] descending is the reversal of the stored order. [None] is
    the answer 500 of the [catch]. *)
Definition getIncomingChatRequests (db : DB) (user : ObjectId)
    : option (list IncomingView.t) :=
  let ownerId := user in
  let chatRequests := rev (filter (byOwnerCorrect ownerId) (chatRequests db)) in
  mapOrThrow (formatIncoming db) chatRequests.

End Incoming.

(** ** Predicates of the further statements *)

(** The conversations have distinct identifiers, all drawn from the
    counter. *)
Definition wfChannels (db : DB) : Prop :=
  NoDup (map Conversation._id (conversations db))
  /\ Forall (fun c => Conversation._id c < nextId db) (conversations db).

(** A conversation of two distinct users. *)
Definition twoParty (c : Conversation.t) : Prop :=
  exists a b, Conversation.participants c = [a; b] /\ a <> b.

(** The number of conversations that the lookup by participants [a], [b]
    and item reference [i] matches. *)
Definition countConversations (db : DB) (a b : ObjectId) (i : option ObjectId) : nat :=
  List.length (filter (byParticipantsItem a b i) (conversations db)).

(** At most one conversation per pair of distinct users and item. *)
Definition uniqueChannels (db : DB) : Prop :=
  forall a b i, a <> b -> countConversations db a b i <= 1.

(** A stored record agrees with its item: the owner and the snapshots are
    the item's, the requester is not the owner, an answer was submitted in
    normal form, and [answerCorrect] tells whether it is the item's answer. *)
Definition consistent (its : list Item.t) (cr : ChatRequest.t) : Prop :=
  exists it s,
    findById Item._id (ChatRequest.item cr) its = Some it
    /\ ChatRequest.owner cr = Item.user it
    /\ ChatRequest.requester cr <> ChatRequest.owner cr
    /\ ChatRequest.verificationQuestion cr = Item.verificationQuestion it
    /\ ChatRequest.verificationQuestion cr <> ""
    /\ ChatRequest.correctAnswer cr
       = ChatRequest.setLowercaseTrim (Item.verificationAnswer it)
    /\ ChatRequest.correctAnswer cr <> ""
    /\ ChatRequest.submittedAnswer cr = Some s
    /\ normalize s = s
    /\ (ChatRequest.answerCorrect cr = true <-> s = Item.verificationAnswer it).


(** What the lookups read of a conversation: identifier, participants and
    item. *)
Definition Shape : Type := ObjectId * list ObjectId * option ObjectId.

Definition shape (c : Conversation.t) : Shape :=
  (Conversation._id c, Conversation.participants c, Conversation.item c).

Definition matchShape (a b : ObjectId) (i : option ObjectId) (s : Shape) : bool :=
  includes (snd (fst s)) a && includes (snd (fst s)) b && refEqb (snd s) i.

(** The effect of a request on the conversations, up to [lastMessage]:
    none, or the opening of a conversation of two distinct users for whom
    the lookup found none. *)
Inductive ChannelStep (db db' : DB) : Prop :=
| ChannelsKept :
    map shape (conversations db') = map shape (conversations db) ->
    ChannelStep db db'
| ChannelOpened a b i :
    a <> b ->
    find (byParticipantsItem a b i) (conversations db) = None ->
    map shape (conversations db')
      = map shape (conversations db) ++ [(nextId db, [a; b], i)] ->
    nextId db < nextId db' ->
    ChannelStep db db'.

(** The invariant of the conversations, on their shapes. *)
Definition channelsOk (l : list Shape) (n : ObjectId) : Prop :=
  NoDup (map (fun s => fst (fst s)) l)
  /\ Forall (fun s => fst (fst s) < n) l
  /\ Forall (fun s => exists a b, snd (fst s) = [a; b] /\ a <> b) l
  /\ forall a b i, a <> b -> List.length (filter (matchShape a b i) l) <= 1.


(** What the listing reads of a record, its status apart. *)
Definition listingKey (cr : ChatRequest.t)
    : ObjectId * ObjectId * ObjectId * ObjectId * bool * option string :=
  (ChatRequest._id cr, ChatRequest.requester cr, ChatRequest.item cr,
   ChatRequest.owner cr, ChatRequest.answerCorrect cr,
   ChatRequest.submittedAnswer cr).


(** The two users of the scenario, and the title and type of its items. *)
Definition users0 : list User.t :=
  [User.mk owner0 "Olga" "olga@example.org";
   User.mk requester0 "Ravi" "ravi@example.org"].
Definition title0 (_ : Item.t) : string := "Notebook".
Definition type0 (_ : Item.t) : ItemType := found.


(** * server.js: the registry of sockets *)

(** [userSocketMap], a JavaScript [Map] from user id to socket id, as the
    list of its entries in insertion order. *)
Definition SocketMap : Type := list (string * string).

(** [Map.prototype.get]. *)
Fixpoint mapGet (k : string) (m : SocketMap) : option string :=
  match m with
  | [] => None
  | (k', v) :: m' => if String.eqb k' k then Some v else mapGet k m'
  end.

(** [Map.prototype.set]: the value of a present key is replaced in place,
    a new key is appended. *)
Fixpoint mapSet (k v : string) (m : SocketMap) : SocketMap :=
  match m with
  | [] => [(k, v)]
  | (k', v') :: m' =>
      if String.eqb k' k then (k, v) :: m' else (k', v') :: mapSet k v m'
  end.

(** [Map.prototype.delete]. *)
Fixpoint mapDelete (k : string) (m : SocketMap) : SocketMap :=
  match m with
  | [] => []
  | (k', v') :: m' =>
      if String.eqb k' k then m' else (k', v') :: mapDelete k m'
  end.

(** What the server emits to a socket. *)
Inductive Emit :=
| receive_message (to message : string)
| user_typing (to : string) (isTyping : bool).

(** The handler of 'register' on the socket [socketId]. *)
Definition onRegister (socketId userId : string) (m : SocketMap) : SocketMap :=
  if negb (JS.truthy userId) then m else mapSet userId socketId m.

(** The handler of 'send_message'. *)
Definition onSendMessage (recipientId message : string) (m : SocketMap) : list Emit :=
  if negb (JS.truthy recipientId) then []
  else
    match mapGet recipientId m with
    | Some recipientSocketId =>
        if JS.truthy recipientSocketId
        then [receive_message recipientSocketId message]
        else []
    | None => []
    end.

(** The handler of 'typing'. *)
Definition onTyping (recipientId : string) (isTyping : bool) (m : SocketMap)
    : list Emit :=
  if negb (JS.truthy recipientId) then []
  else
    match mapGet recipientId m with
    | Some recipientSocketId =>
        if JS.truthy recipientSocketId
        then [user_typing recipientSocketId isTyping]
        else []
    | None => []
    end.

(** The handler of 'disconnect' on the socket [socketId]: the loop stops
    at the first entry of that socket and deletes its user. *)
Definition onDisconnect (socketId : string) (m : SocketMap) : SocketMap :=
  match find (fun e => String.eqb (snd e) socketId) m with
  | Some (userId, _) => mapDelete userId m
  | None => m
  end.

(** The events that change the registry. *)
Inductive SocketEvent :=
| EvRegister (socketId userId : string)
| EvDisconnect (socketId : string).

Definition socketStep (m : SocketMap) (e : SocketEvent) : SocketMap :=
  match e with
  | EvRegister s u => onRegister s u m
  | EvDisconnect s => onDisconnect s m
  end.

Definition socketRun (evs : list SocketEvent) : SocketMap :=
  fold_left socketStep evs [].

(** The entries of a registry have distinct, non-empty user ids. *)
Definition wfRegistry (m : SocketMap) : Prop :=
  NoDup (map fst m) /\ Forall (fun e => JS.truthy (fst e) = true) m.

(** The number of users registered on a socket. *)
Definition countSocket (s : string) (m : SocketMap) : nat :=
  List.length (filter (fun e => String.eqb (snd e) s) m).


(** * Proofs *)

(** ** Facts on the string primitives *)

Section StringFacts.

Import JS.

Ltac each_code_unit c :=
  destruct c as [[] [] [] [] [] [] [] []]; vm_compute; reflexivity.

Lemma lowerChar_idem (c : ascii) : lowerChar (lowerChar c) = lowerChar c.
Proof. each_code_unit c. Qed.

Lemma isWhiteSpace_lowerChar (c : ascii) :
  isWhiteSpace (lowerChar c) = isWhiteSpace c.
Proof. each_code_unit c. Qed.

Lemma toLowerCase_idem (s : string) : toLowerCase (toLowerCase s) = toLowerCase s.
Proof.
  induction s as [|c s IH]; simpl; [reflexivity|].
  now rewrite lowerChar_idem, IH.
Qed.

Lemma toLowerCase_trimStart (s : string) :
  toLowerCase (trimStart s) = trimStart (toLowerCase s).
Proof.
  induction s as [|c s IH]; simpl; [reflexivity|].
  rewrite isWhiteSpace_lowerChar.
  destruct (isWhiteSpace c); [exact IH | reflexivity].
Qed.

Lemma toLowerCase_trimEnd (s : string) :
  toLowerCase (trimEnd s) = trimEnd (toLowerCase s).
Proof.
  induction s as [|c s IH]; simpl; [reflexivity|].
  rewrite <- IH, isWhiteSpace_lowerChar.
  destruct (trimEnd s); simpl; [destruct (isWhiteSpace c)|]; reflexivity.
Qed.

Lemma toLowerCase_trim (s : string) :
  toLowerCase (trim s) = trim (toLowerCase s).
Proof.
  unfold trim. now rewrite toLowerCase_trimEnd, toLowerCase_trimStart.
Qed.

Lemma trimStart_headClean (s : string) : headClean (trimStart s).
Proof.
  induction s as [|c s IH]; simpl; [exact I|].
  destruct (isWhiteSpace c) eqn:E; [exact IH | exact E].
Qed.

Lemma trimStart_fix (s : string) : headClean s -> trimStart s = s.
Proof.
  destruct s as [|c s]; simpl; [reflexivity|].
  now intros ->.
Qed.

Lemma trimEnd_headClean (s : string) : headClean s -> headClean (trimEnd s).
Proof.
  destruct s as [|c s]; simpl; [trivial|].
  intros E. destruct (trimEnd s); [rewrite E|]; exact E.
Qed.

Lemma trimEnd_idem (s : string) : trimEnd (trimEnd s) = trimEnd s.
Proof.
  induction s as [|c s IH]; simpl; [reflexivity|].
  destruct (trimEnd s) as [|d t] eqn:E.
  - destruct (isWhiteSpace c) eqn:W; simpl; [reflexivity | now rewrite W].
  - change (trimEnd (String c (String d t))) with
      (match trimEnd (String d t) with
       | EmptyString => if isWhiteSpace c then EmptyString else String c EmptyString
       | u => String c u
       end).
    now rewrite IH.
Qed.

Lemma trim_idem (s : string) : trim (trim s) = trim s.
Proof.
  unfold trim.
  rewrite (trimStart_fix (trimEnd (trimStart s))).
  - apply trimEnd_idem.
  - apply trimEnd_headClean, trimStart_headClean.
Qed.

End StringFacts.

(** ** Lemmas on collections *)

Section CollectionFacts.

Context {Doc : Type} (docId : Doc -> ObjectId).

Lemma findById_In i c d : findById docId i c = Some d -> In d c /\ docId d = i.
Proof.
  unfold findById. intros H. apply find_some in H as [H1 H2].
  split; [exact H1 | now apply Nat.eqb_eq].
Qed.

Lemma In_saveDoc d c x : In x (saveDoc docId d c) -> x = d \/ In x c.
Proof.
  induction c as [|y c IH]; simpl; [tauto|].
  destruct (docId y =? docId d); simpl; intros [H|H]; auto.
  destruct (IH H); auto.
Qed.

Lemma saveDoc_In d d0 c :
  In d0 c -> docId d = docId d0 -> In d (saveDoc docId d c).
Proof.
  intros Hin E. induction c as [|y l IH]; simpl in *; [contradiction|].
  destruct Hin as [->|Hin].
  - rewrite E, Nat.eqb_refl. now left.
  - destruct (docId y =? docId d); [now left | right; auto].
Qed.

Lemma map_saveDoc d c : map docId (saveDoc docId d c) = map docId c.
Proof.
  induction c as [|y c IH]; simpl; [reflexivity|].
  destruct (docId y =? docId d) eqn:E; simpl.
  - apply Nat.eqb_eq in E. now rewrite E.
  - now rewrite IH.
Qed.

Lemma findById_saveDoc d d0 c :
  findById docId (docId d) c = Some d0 ->
  findById docId (docId d) (saveDoc docId d c) = Some d.
Proof.
  unfold findById. induction c as [|y c IH]; simpl; [discriminate|].
  destruct (docId y =? docId d) eqn:E; simpl.
  - now rewrite Nat.eqb_refl.
  - rewrite E. exact IH.
Qed.

Lemma findById_saveDoc_other d c i :
  i <> docId d ->
  findById docId i (saveDoc docId d c) = findById docId i c.
Proof.
  unfold findById. intros N. induction c as [|y c IH]; simpl; [reflexivity|].
  destruct (docId y =? docId d) eqn:E; simpl.
  - apply Nat.eqb_eq in E.
    destruct (docId d =? i) eqn:E1; [apply Nat.eqb_eq in E1; congruence|].
    destruct (docId y =? i) eqn:E2; [apply Nat.eqb_eq in E2; congruence|].
    reflexivity.
  - destruct (docId y =? i); [reflexivity | exact IH].
Qed.

Lemma saveDoc_same d c : findById docId (docId d) c = Some d -> saveDoc docId d c = c.
Proof.
  unfold findById. induction c as [|y c IH]; simpl; [reflexivity|].
  destruct (docId y =? docId d) eqn:E.
  - now intros [= ->].
  - intros H. now rewrite IH.
Qed.

(** With distinct identifiers, saving replaces the one document it was
    read from and leaves the others in place. *)
Lemma saveDoc_split d d0 c :
  NoDup (map docId c) -> In d0 c -> docId d = docId d0 ->
  exists l1 l2, c = l1 ++ d0 :: l2 /\ saveDoc docId d c = l1 ++ d :: l2.
Proof.
  intros ND HIn E. induction c as [|y c IH]; simpl in *; [contradiction|].
  inversion ND as [|? ? Hy ND']; subst.
  destruct HIn as [->|HIn].
  - exists [], c. rewrite E, Nat.eqb_refl. split; reflexivity.
  - destruct (docId y =? docId d) eqn:Ey.
    + apply Nat.eqb_eq in Ey. exfalso. apply Hy.
      rewrite Ey, E. now apply in_map.
    + destruct (IH ND' HIn) as (l1 & l2 & -> & ->).
      exists (y :: l1), l2. split; reflexivity.
Qed.

Lemma find_app_None {A} (f : A -> bool) l1 l2 :
  find f l1 = None -> find f (l1 ++ l2) = find f l2.
Proof.
  induction l1 as [|y l1 IH]; simpl; [reflexivity|].
  destruct (f y); [discriminate | exact IH].
Qed.

Lemma find_app_Some {A} (f : A -> bool) l1 l2 x :
  find f l1 = Some x -> find f (l1 ++ l2) = Some x.
Proof.
  induction l1 as [|y l1 IH]; simpl; [discriminate|].
  destruct (f y); [trivial | exact IH].
Qed.

Lemma find_None_filter {A} (f : A -> bool) l : find f l = None -> filter f l = [].
Proof.
  induction l as [|y l IH]; simpl; [reflexivity|].
  destruct (f y); [discriminate | exact IH].
Qed.

Lemma find_Some_filter {A} (f : A -> bool) l x :
  find f l = Some x -> 1 <= List.length (filter f l).
Proof.
  induction l as [|y l IH]; simpl; [discriminate|].
  destruct (f y); simpl; [lia | exact IH].
Qed.

End CollectionFacts.

(** ** Answer normalisation and evaluation *)

Lemma normalize_idem (s : string) : normalize (normalize s) = normalize s.
Proof.
  unfold normalize.
  now rewrite toLowerCase_trim, toLowerCase_idem, trim_idem.
Qed.

(** The schema setters leave an answer that the handler normalised as it is. *)
Lemma setLowercaseTrim_normalize (s : string) :
  ChatRequest.setLowercaseTrim (normalize s) = normalize s.
Proof.
  unfold ChatRequest.setLowercaseTrim, normalize.
  now rewrite trim_idem, toLowerCase_trim, toLowerCase_idem.
Qed.

Lemma evaluate_spec (answer : string) (item : Item.t) :
  evaluate answer item = true <-> normalize answer = Item.verificationAnswer item.
Proof. unfold evaluate. apply String.eqb_eq. Qed.

Lemma chatRequests_notifyOwner b o c db :
  chatRequests (notifyOwner b o c db) = chatRequests db.
Proof. destruct b; reflexivity. Qed.

(** What a submission that passes the three guards does, by the two
    branches of the lookup. *)
Lemma submit_guarded db user itemId answer item :
  findById Item._id itemId (items db) = Some item ->
  JS.truthy (Item.verificationQuestion item) = true ->
  user <> Item.user item ->
  submitVerificationAnswer db user itemId answer =
  match find (byTriple itemId user (Item.user item)) (chatRequests db) with
  | Some cr =>
      let cr' := ChatRequest.mk (ChatRequest._id cr) (ChatRequest.item cr)
                   (ChatRequest.requester cr) (ChatRequest.owner cr)
                   (ChatRequest.verificationQuestion cr) (ChatRequest.correctAnswer cr)
                   (Some (normalize answer)) (evaluate answer item)
                   (ChatRequest.status cr) (ChatRequest.conversation cr) in
      (notifyOwner (evaluate answer item) (Item.user item) (ChatRequest._id cr)
         (withChatRequests db (saveDoc ChatRequest._id cr' (chatRequests db))),
       res 200 (JAnswer (evaluate answer item)
                  (if evaluate answer item
                   then "Answer correct! Chat request sent to owner for approval"
                   else "Incorrect answer. Please try again.")
                  (ChatRequest._id cr)))
  | None =>
      if JS.truthy (ChatRequest.setLowercaseTrim (Item.verificationAnswer item)) then
        let cr' := ChatRequest.mk (nextId db) itemId user (Item.user item)
                     (Item.verificationQuestion item)
                     (ChatRequest.setLowercaseTrim (Item.verificationAnswer item))
                     (Some (normalize answer)) (evaluate answer item) pending None in
        (notifyOwner (evaluate answer item) (Item.user item) (nextId db)
           (withNextId (withChatRequests db (chatRequests db ++ [cr'])) (S (nextId db))),
         res 200 (JAnswer (evaluate answer item)
                    (if evaluate answer item
                     then "Answer correct! Chat request sent to owner for approval"
                     else "Incorrect answer. Please try again.")
                    (nextId db)))
      else
        (db, res 500 (JMessage
           "ChatRequest validation failed: correctAnswer: Path `correctAnswer` is required."))
  end.
Proof.
  intros Hi Hq Hu. unfold submitVerificationAnswer. rewrite Hi, Hq. simpl negb. cbv iota.
  apply Nat.eqb_neq in Hu. rewrite Hu.
  destruct (find _ (chatRequests db)) as [cr|].
  - unfold ChatRequest.set_answerCorrect, ChatRequest.set_submittedAnswer; simpl.
    rewrite setLowercaseTrim_normalize. unfold notifyOwner.
    destruct (evaluate answer item); reflexivity.
  - unfold ChatRequest_create, ChatRequest.failedPaths; simpl.
    rewrite Hq, setLowercaseTrim_normalize. simpl.
    destruct (JS.truthy (ChatRequest.setLowercaseTrim _)); simpl.
    + unfold notifyOwner. destruct (evaluate answer item); reflexivity.
    + reflexivity.
Qed.

(** ** Evaluation of a submitted answer *)

(** C8: the evaluation is true exactly when the lower-cased, trimmed
    submission equals the stored answer; a successful submission answers
    with that result and stores it with the normalised submission; "Blue",
    " blue " and "BLUE" match the stored "blue"; normalising twice is
    normalising once. *)
Theorem answer_matching :
  (forall answer item,
     evaluate answer item = true <->
     JS.trim (JS.toLowerCase answer) = Item.verificationAnswer item)
  /\ (forall db user itemId answer db' success msg id,
        submitVerificationAnswer db user itemId answer
          = (db', res 200 (JAnswer success msg id)) ->
        exists item cr,
          findById Item._id itemId (items db) = Some item
          /\ success = evaluate answer item
          /\ In cr (chatRequests db') /\ ChatRequest._id cr = id
          /\ ChatRequest.answerCorrect cr = success
          /\ ChatRequest.submittedAnswer cr = Some (JS.trim (JS.toLowerCase answer)))
  /\ (evaluate "Blue" item0 = true /\ evaluate " blue " item0 = true
      /\ evaluate "BLUE" item0 = true)
  /\ (forall s, normalize (normalize s) = normalize s).
Proof.
  split; [exact evaluate_spec|].
  split; [|split; [repeat split; reflexivity | exact normalize_idem]].
  intros db user itemId answer db' success msg id H.
  destruct (findById Item._id itemId (items db)) as [item|] eqn:Hi;
    [|unfold submitVerificationAnswer in H; rewrite Hi in H; discriminate].
  destruct (JS.truthy (Item.verificationQuestion item)) eqn:Hq;
    [|unfold submitVerificationAnswer in H; rewrite Hi, Hq in H; discriminate].
  destruct (Nat.eq_dec user (Item.user item)) as [Hu|Hu].
  { unfold submitVerificationAnswer in H. rewrite Hi, Hq in H. simpl in H.
    apply Nat.eqb_eq in Hu. rewrite Hu in H. discriminate. }
  rewrite (submit_guarded _ _ _ _ _ Hi Hq Hu) in H.
  destruct (find _ (chatRequests db)) as [cr|] eqn:Hf.
  - cbv zeta in H. injection H as <- <- _ <-.
    apply find_some in Hf as [Hin _].
    eexists item, _. rewrite chatRequests_notifyOwner. simpl.
    split; [reflexivity|]. split; [reflexivity|].
    split; [eapply saveDoc_In; [exact Hin | reflexivity]|].
    repeat split; reflexivity.
  - destruct (JS.truthy (ChatRequest.setLowercaseTrim _)); [|discriminate].
    cbv zeta in H. injection H as <- <- _ <-.
    eexists item, _. rewrite chatRequests_notifyOwner. simpl.
    split; [reflexivity|]. split; [reflexivity|].
    split; [apply in_or_app; right; left; reflexivity|].
    repeat split; reflexivity.
Qed.

Lemma answer_matching_witness :
  exists item cr,
    findById Item._id 10 (items db0) = Some item
    /\ true = evaluate "BLUE " item
    /\ In cr (chatRequests (fst (submitVerificationAnswer db0 requester0 10 "BLUE ")))
    /\ ChatRequest._id cr = 100
    /\ ChatRequest.answerCorrect cr = true
    /\ ChatRequest.submittedAnswer cr = Some (JS.trim (JS.toLowerCase "BLUE ")).
Proof.
  destruct answer_matching as [_ [H _]].
  exact (H db0 requester0 10 "BLUE " _ true _ 100 eq_refl).
Defined.

(** ** Errors of the chat request controller *)

Lemma owner_submission_refused db user itemId answer item :
  findById Item._id itemId (items db) = Some item ->
  JS.truthy (Item.verificationQuestion item) = true ->
  user = Item.user item ->
  submitVerificationAnswer db user itemId answer = (db, selfContact).
Proof.
  intros Hi Hq ->. unfold submitVerificationAnswer.
  rewrite Hi, Hq, Nat.eqb_refl. reflexivity.
Qed.

(** C7: an approval by the owner of a record whose answer is not correct
    is answered with 'Answer was not correct'; the database, and with it
    the record and the conversations, are left as they were. *)
Theorem approve_requires_correct_answer db user chatRequestId cr :
  findById ChatRequest._id chatRequestId (chatRequests db) = Some cr ->
  ChatRequest.owner cr = user ->
  ChatRequest.answerCorrect cr = false ->
  approveChatRequest db user chatRequestId = (db, answerNotVerified).
Proof.
  intros Hf Ho Ha. unfold approveChatRequest.
  rewrite Hf, Ho, Nat.eqb_refl, Ha. reflexivity.
Qed.

Lemma approve_requires_correct_answer_witness :
  let db := run db0 [SubmitAnswer requester0 10 "red"] in
  approveChatRequest db owner0 100 = (db, answerNotVerified).
Proof.
  apply (approve_requires_correct_answer _ owner0 100
           (ChatRequest.mk 100 10 requester0 owner0 "What color?" "blue"
              (Some "red") false pending None));
    reflexivity.
Defined.

(** C5, as the code has it: a submission by the owner of the item stores
    nothing; on an item with a verification question it is answered with
    'You cannot request chat with yourself', and on an item without one
    with the missing-question error, the check that comes first. *)
Theorem self_contact_rejected db user itemId answer item :
  findById Item._id itemId (items db) = Some item ->
  user = Item.user item ->
  fst (submitVerificationAnswer db user itemId answer) = db
  /\ (JS.truthy (Item.verificationQuestion item) = true ->
      snd (submitVerificationAnswer db user itemId answer) = selfContact)
  /\ (JS.truthy (Item.verificationQuestion item) = false ->
      snd (submitVerificationAnswer db user itemId answer) = notConfigured).
Proof.
  intros Hi Hu.
  destruct (JS.truthy (Item.verificationQuestion item)) eqn:Hq.
  - rewrite (owner_submission_refused db user itemId answer item Hi Hq Hu).
    repeat split. discriminate.
  - unfold submitVerificationAnswer. rewrite Hi, Hq. simpl.
    repeat split. discriminate.
Qed.

Lemma self_contact_rejected_witness :
  fst (submitVerificationAnswer db1 owner0 10 "blue") = db1
  /\ (JS.truthy (Item.verificationQuestion item0) = true ->
      snd (submitVerificationAnswer db1 owner0 10 "blue") = selfContact)
  /\ (JS.truthy (Item.verificationQuestion item0) = false ->
      snd (submitVerificationAnswer db1 owner0 10 "blue") = notConfigured).
Proof.
  apply (self_contact_rejected db1 owner0 10 "blue" item0); reflexivity.
Defined.

(** C5 fails as stated: the owner of an item without a verification
    question is answered with the missing-question error, the check that
    comes first in the handler. *)
Lemma self_contact_counterexample :
  findById Item._id 11 (items db1) = Some itemOpen
  /\ owner0 = Item.user itemOpen
  /\ submitVerificationAnswer db1 owner0 11 "blue" = (db1, notConfigured)
  /\ snd (submitVerificationAnswer db1 owner0 11 "blue") <> selfContact.
Proof. repeat split; try reflexivity. vm_compute. discriminate. Qed.

(** C9, as the code has it: the missing-configuration error is raised
    exactly when the item's question is empty, whatever its answer, and
    then the database is unchanged; on an item whose answer is empty no
    record is added either. *)
Theorem not_configured_iff_no_question db user itemId answer item :
  findById Item._id itemId (items db) = Some item ->
  (snd (submitVerificationAnswer db user itemId answer) = notConfigured
   <-> JS.truthy (Item.verificationQuestion item) = false)
  /\ (JS.truthy (Item.verificationQuestion item) = false ->
      submitVerificationAnswer db user itemId answer = (db, notConfigured))
  /\ (Item.verificationAnswer item = "" ->
      map ChatRequest._id
        (chatRequests (fst (submitVerificationAnswer db user itemId answer)))
      = map ChatRequest._id (chatRequests db)).
Proof.
  intros Hi.
  assert (Hno : JS.truthy (Item.verificationQuestion item) = false ->
                submitVerificationAnswer db user itemId answer = (db, notConfigured)).
  { intros Hq. unfold submitVerificationAnswer. now rewrite Hi, Hq. }
  split; [|split; [exact Hno|]].
  - split; [|intros Hq; now rewrite (Hno Hq)].
    destruct (JS.truthy (Item.verificationQuestion item)) eqn:Hq; [|reflexivity].
    intros H. exfalso. revert H.
    destruct (Nat.eq_dec user (Item.user item)) as [Hu|Hu].
    + rewrite (owner_submission_refused db user itemId answer item Hi Hq Hu).
      simpl. discriminate.
    + rewrite (submit_guarded _ _ _ _ _ Hi Hq Hu).
      destruct (find _ (chatRequests db)); [simpl; discriminate|].
      destruct (JS.truthy (ChatRequest.setLowercaseTrim _)); simpl; discriminate.
  - intros Ha.
    destruct (JS.truthy (Item.verificationQuestion item)) eqn:Hq;
      [|now rewrite (Hno eq_refl)].
    destruct (Nat.eq_dec user (Item.user item)) as [Hu|Hu];
      [now rewrite (owner_submission_refused db user itemId answer item Hi Hq Hu)|].
    rewrite (submit_guarded _ _ _ _ _ Hi Hq Hu).
    destruct (find _ (chatRequests db)).
    + cbv zeta. unfold fst. rewrite chatRequests_notifyOwner. simpl chatRequests.
      apply map_saveDoc.
    + rewrite Ha. reflexivity.
Qed.

Lemma not_configured_iff_no_question_witness :
  (snd (submitVerificationAnswer db1 requester0 11 "blue") = notConfigured
   <-> JS.truthy (Item.verificationQuestion itemOpen) = false)
  /\ (JS.truthy (Item.verificationQuestion itemOpen) = false ->
      submitVerificationAnswer db1 requester0 11 "blue" = (db1, notConfigured))
  /\ (Item.verificationAnswer itemOpen = "" ->
      map ChatRequest._id
        (chatRequests (fst (submitVerificationAnswer db1 requester0 11 "blue")))
      = map ChatRequest._id (chatRequests db1)).
Proof.
  apply (not_configured_iff_no_question db1 requester0 11 "blue" itemOpen).
  reflexivity.
Defined.

(** C9 fails as stated: with the question set and the answer empty the
    guard does not fire; the first submission of a requester is then
    refused by the validation of the new record. *)
Lemma not_configured_counterexample :
  findById Item._id 12 (items db1) = Some itemNoAnswer
  /\ Item.verificationAnswer itemNoAnswer = ""
  /\ snd (submitVerificationAnswer db1 requester0 12 "blue") <> notConfigured
  /\ statusCode (snd (submitVerificationAnswer db1 requester0 12 "blue")) = 500.
Proof. repeat split; try reflexivity. vm_compute. discriminate. Qed.

(** ** The effect of a request on the ledger *)

Lemma Update_id r cr cr' : Update r cr cr' -> ChatRequest._id cr' = ChatRequest._id cr.
Proof. now destruct 1. Qed.

Lemma Update_triple r cr cr' :
  Update r cr cr' ->
  ChatRequest.item cr' = ChatRequest.item cr
  /\ ChatRequest.requester cr' = ChatRequest.requester cr
  /\ ChatRequest.owner cr' = ChatRequest.owner cr.
Proof. now destruct 1. Qed.

Lemma postMessage_frame db c u rcp m :
  let db' := fst (postMessage db c u rcp m) in
  items db' = items db /\ chatRequests db' = chatRequests db
  /\ nextId db' = S (nextId db).
Proof. now unfold postMessage. Qed.

Lemma handle_frame db r :
  items (fst (handle db r)) = items db
  /\ nextId db <= nextId (fst (handle db r)).
Proof.
  destruct r as [u i a|u c|u c|u c m|u rc i m]; simpl.
  - unfold submitVerificationAnswer.
    destruct (findById Item._id i (items db)) as [item|]; [|now simpl].
    destruct (JS.truthy (Item.verificationQuestion item)); [|now simpl].
    simpl negb. cbv iota. destruct (u =? Item.user item); [now simpl|].
    destruct (find _ (chatRequests db)).
    + destruct (evaluate a item); now simpl.
    + unfold ChatRequest_create.
      destruct (ChatRequest.failedPaths _); [|now simpl].
      destruct (evaluate a item); simpl; split; auto.
  - unfold approveChatRequest.
    destruct (findById ChatRequest._id c (chatRequests db)) as [cr|]; [|now simpl].
    destruct (negb (ChatRequest.owner cr =? u)); [now simpl|].
    destruct (negb (ChatRequest.answerCorrect cr)); [now simpl|].
    destruct (find _ (conversations db)); simpl; split; auto.
  - unfold declineChatRequest.
    destruct (findById ChatRequest._id c (chatRequests db)) as [cr|]; [|now simpl].
    destruct (negb (ChatRequest.owner cr =? u)); now simpl.
  - unfold sendMessage.
    destruct (findById Conversation._id c (conversations db)) as [cv|]; [|now simpl].
    destruct (negb (includes _ u)); [now simpl|].
    destruct (negb (verificationGate _ _ _)); [now simpl|].
    simpl. split; auto.
  - unfold createConversation.
    destruct (rc =? u); [now simpl|].
    destruct (find _ (conversations db)); destruct m as [m|];
      try destruct (JS.truthy m); simpl; split; auto.
Qed.

Lemma handle_ledger db r : LedgerStep db r (fst (handle db r)).
Proof.
  destruct r as [u i a|u c|u c|u c m|u rc i m]; simpl.
  - unfold submitVerificationAnswer.
    destruct (findById Item._id i (items db)) as [item|] eqn:Hi;
      [|now apply StepSame].
    destruct (JS.truthy (Item.verificationQuestion item)) eqn:Hq;
      [|now apply StepSame].
    simpl negb. cbv iota.
    destruct (u =? Item.user item) eqn:Hu; [now apply StepSame|].
    apply Nat.eqb_neq in Hu.
    destruct (find _ (chatRequests db)) as [cr|] eqn:Hf.
    + apply find_some in Hf as [Hin _].
      eapply StepUpdate; [exact Hin | |].
      * apply (UpdSubmit u i a (ChatRequest.setLowercaseTrim (normalize a))
                 (evaluate a item)).
      * destruct (evaluate a item); reflexivity.
    + unfold ChatRequest_create.
      destruct (ChatRequest.failedPaths _); [|now apply StepSame].
      destruct (evaluate a item);
        (eapply (StepInsert _ _ _ _ item a);
         [reflexivity | reflexivity | reflexivity | reflexivity | reflexivity
         | exact Hi | exact Hu | reflexivity | exact Hf]).
  - unfold approveChatRequest.
    destruct (findById ChatRequest._id c (chatRequests db)) as [cr|] eqn:Hf;
      [|now apply StepSame].
    apply findById_In in Hf as [Hin Hid].
    destruct (ChatRequest.owner cr =? u) eqn:Ho; [|now apply StepSame].
    apply Nat.eqb_eq in Ho. simpl.
    destruct (ChatRequest.answerCorrect cr) eqn:Ha; [|now apply StepSame].
    simpl. subst u c.
    destruct (find _ (conversations db)) as [cv|]; simpl;
      (eapply StepUpdate; [exact Hin | apply UpdApprove; exact Ha | reflexivity]).
  - unfold declineChatRequest.
    destruct (findById ChatRequest._id c (chatRequests db)) as [cr|] eqn:Hf;
      [|now apply StepSame].
    apply findById_In in Hf as [Hin Hid].
    destruct (ChatRequest.owner cr =? u) eqn:Ho; [|now apply StepSame].
    apply Nat.eqb_eq in Ho. simpl. subst u c.
    eapply StepUpdate; [exact Hin | apply UpdDecline | reflexivity].
  - unfold sendMessage.
    destruct (findById Conversation._id c (conversations db)) as [cv|];
      [|now apply StepSame].
    destruct (negb (includes _ u)); [now apply StepSame|].
    destruct (negb (verificationGate _ _ _)); now apply StepSame.
  - unfold createConversation.
    destruct (rc =? u); [now apply StepSame|].
    destruct (find _ (conversations db)); destruct m as [m|];
      try destruct (JS.truthy m); now apply StepSame.
Qed.

Lemma NoDup_findById {Doc} (docId : Doc -> ObjectId) c d :
  NoDup (map docId c) -> In d c -> findById docId (docId d) c = Some d.
Proof.
  unfold findById. induction c as [|y c IH]; simpl; [contradiction|].
  intros ND Hin. inversion ND as [|? ? Hy ND']; subst.
  destruct Hin as [->|Hin]; [now rewrite Nat.eqb_refl|].
  destruct (docId y =? docId d) eqn:E; [|auto].
  apply Nat.eqb_eq in E. exfalso. apply Hy. rewrite E. now apply in_map.
Qed.

(** Reading a record back after it was saved. *)
Lemma findById_resave {Doc} (docId : Doc -> ObjectId) i d d' c :
  findById docId i c = Some d -> docId d' = docId d ->
  findById docId i (saveDoc docId d' c) = Some d'.
Proof.
  intros Hf E. pose proof (findById_In _ _ _ _ Hf) as [_ Hid].
  rewrite <- Hid, <- E. apply (findById_saveDoc docId d' d).
  now rewrite E, Hid.
Qed.

Lemma wfLedger_handle db r : wfLedger db -> wfLedger (fst (handle db r)).
Proof.
  intros [ND Hlt]. pose proof (handle_frame db r) as [_ Hn].
  destruct (handle_ledger db r) as [E|cr cr' Hin Hu E|cr' item a E Hid Hn' _ _ _ _ _ _];
    unfold wfLedger; rewrite E.
  - split; [exact ND|]. eapply Forall_impl; [|exact Hlt]. simpl. intros; lia.
  - rewrite map_saveDoc. split; [exact ND|].
    apply Forall_forall. intros x Hx. rewrite Forall_forall in Hlt.
    apply In_saveDoc in Hx as [->|Hx].
    + rewrite (Update_id _ _ _ Hu). specialize (Hlt _ Hin). lia.
    + specialize (Hlt _ Hx). lia.
  - rewrite map_app. simpl. split.
    + apply NoDup_app; [exact ND | repeat constructor; simpl; tauto |].
      intros x Hx [<-|[]]. rewrite in_map_iff in Hx. destruct Hx as (y & Hy & Hy').
      rewrite Forall_forall in Hlt. specialize (Hlt _ Hy'). lia.
    + apply Forall_app. split.
      * eapply Forall_impl; [|exact Hlt]. simpl. intros; lia.
      * repeat constructor. lia.
Qed.

Lemma wfLedger_run rs : forall db, wfLedger db -> wfLedger (run db rs).
Proof.
  induction rs as [|r rs IH]; simpl; [trivial|].
  intros db H. apply IH, wfLedger_handle, H.
Qed.

Lemma wfLedger_fresh its n : wfLedger (freshDB its n).
Proof. split; constructor. Qed.

(** A stored record is still stored after a request, either as it was or
    rewritten by the request. *)
Lemma handle_record db r i cr :
  wfLedger db ->
  findById ChatRequest._id i (chatRequests db) = Some cr ->
  exists cr',
    findById ChatRequest._id i (chatRequests (fst (handle db r))) = Some cr'
    /\ (cr' = cr \/ Update r cr cr').
Proof.
  intros [ND _] Hf.
  destruct (handle_ledger db r) as [E|cr0 cr0' Hin Hu E|cr' item a E _ _ _ _ _ _ _ _];
    rewrite E.
  - exists cr. auto.
  - destruct (Nat.eq_dec i (ChatRequest._id cr0)) as [Hi|Hi].
    + pose proof (NoDup_findById ChatRequest._id _ _ ND Hin) as Hf0.
      rewrite <- Hi, Hf in Hf0. injection Hf0 as ->.
      exists cr0'. split; [|now right].
      rewrite Hi, <- (Update_id _ _ _ Hu).
      eapply findById_saveDoc. rewrite (Update_id _ _ _ Hu), <- Hi. exact Hf.
    + exists cr. split; [|now left].
      rewrite findById_saveDoc_other; [exact Hf|].
      now rewrite (Update_id _ _ _ Hu).
  - exists cr. split; [|now left]. now apply find_app_Some.
Qed.

(** ** Status and conversation of a record *)

Lemma statusChannel_Update r cr cr' :
  Update r cr cr' -> statusChannel cr -> statusChannel cr'.
Proof.
  destruct 1; unfold statusChannel; simpl; intros [H1 H2];
    (split; [|]); try discriminate; auto.
Qed.

Lemma statusChannel_handle db r :
  Forall statusChannel (chatRequests db) ->
  Forall statusChannel (chatRequests (fst (handle db r))).
Proof.
  intros H.
  destruct (handle_ledger db r) as [E|cr cr' Hin Hu E|cr' item a E _ _ Hs Hc _ _ _ _];
    rewrite E.
  - exact H.
  - rewrite Forall_forall in *. intros x Hx.
    apply In_saveDoc in Hx as [->|Hx]; [|auto].
    eapply statusChannel_Update; eauto.
  - apply Forall_app. split; [exact H|]. repeat constructor.
    + rewrite Hs. discriminate.
    + intros _. exact Hc.
Qed.

Lemma statusChannel_run rs : forall db,
  Forall statusChannel (chatRequests db) ->
  Forall statusChannel (chatRequests (run db rs)).
Proof.
  induction rs as [|r rs IH]; simpl; [trivial|].
  intros db H. apply IH, statusChannel_handle, H.
Qed.

(** C2, as the code has it: after every sequence of requests on a ledger
    that starts empty, an approved record has a conversation and a pending
    record has none. *)
Theorem approved_has_conversation its n rs cr :
  In cr (chatRequests (run (freshDB its n) rs)) ->
  (ChatRequest.status cr = approved -> ChatRequest.conversation cr <> None)
  /\ (ChatRequest.status cr = pending -> ChatRequest.conversation cr = None).
Proof.
  intros Hin.
  pose proof (statusChannel_run rs (freshDB its n) (Forall_nil _)) as H.
  rewrite Forall_forall in H. exact (H cr Hin).
Qed.

Lemma approved_has_conversation_witness :
  let cr := ChatRequest.mk 100 10 requester0 owner0 "What color?" "blue"
              (Some "blue") true approved (Some 101) in
  (ChatRequest.status cr = approved -> ChatRequest.conversation cr <> None)
  /\ (ChatRequest.status cr = pending -> ChatRequest.conversation cr = None).
Proof.
  apply (approved_has_conversation [item0] 100
           [SubmitAnswer requester0 10 "BLUE "; Approve owner0 100]).
  left. reflexivity.
Defined.

(** C2 fails as stated: a record declined after its approval keeps the
    conversation. *)
Lemma conversation_iff_approved_counterexample :
  exists cr,
    In cr (chatRequests (run db0 [SubmitAnswer requester0 10 "BLUE ";
                                  Approve owner0 100; Decline owner0 100]))
    /\ ~ (ChatRequest.conversation cr <> None <-> ChatRequest.status cr = approved).
Proof.
  eexists. split; [left; reflexivity|].
  simpl. intros [H _]. assert (E : declined = approved) by (apply H; discriminate).
  discriminate.
Qed.

(** ** Transitions of the status *)

Lemma status_Update r cr cr' :
  Update r cr cr' ->
  ChatRequest.status cr' = ChatRequest.status cr
  \/ (ChatRequest.status cr' = approved
      /\ r = Approve (ChatRequest.owner cr) (ChatRequest._id cr)
      /\ ChatRequest.answerCorrect cr = true)
  \/ (ChatRequest.status cr' = declined
      /\ r = Decline (ChatRequest.owner cr) (ChatRequest._id cr)).
Proof. destruct 1; simpl; auto. Qed.

Lemma not_pending_run rs : forall db i cr,
  wfLedger db ->
  findById ChatRequest._id i (chatRequests db) = Some cr ->
  ChatRequest.status cr <> pending ->
  exists cr',
    findById ChatRequest._id i (chatRequests (run db rs)) = Some cr'
    /\ ChatRequest.status cr' <> pending.
Proof.
  induction rs as [|r rs IH]; simpl; intros db i cr Hwf Hf Hs; [eauto|].
  destruct (handle_record db r i cr Hwf Hf) as (cr1 & Hf1 & H1).
  apply (IH _ i cr1 (wfLedger_handle db r Hwf) Hf1).
  destruct H1 as [->|Hu]; [exact Hs|].
  destruct (status_Update _ _ _ Hu) as [E|[[E _]|[E _]]]; rewrite E;
    [exact Hs | discriminate | discriminate].
Qed.

(** C3, as the code has it: a request leaves the status of a stored
    record as it is, or sets it to approved (the approval by the owner of
    a correctly answered record), or sets it to declined (the decline by
    the owner); a record that has left pending does not return to it; the
    approval and the decline by the owner apply whatever the status was. *)
Theorem status_transitions :
  (forall db r i cr,
     wfLedger db ->
     findById ChatRequest._id i (chatRequests db) = Some cr ->
     exists cr',
       findById ChatRequest._id i (chatRequests (fst (handle db r))) = Some cr'
       /\ (ChatRequest.status cr' = ChatRequest.status cr
           \/ (ChatRequest.status cr' = approved
               /\ r = Approve (ChatRequest.owner cr) i
               /\ ChatRequest.answerCorrect cr = true)
           \/ (ChatRequest.status cr' = declined
               /\ r = Decline (ChatRequest.owner cr) i)))
  /\ (forall db rs i cr,
        wfLedger db ->
        findById ChatRequest._id i (chatRequests db) = Some cr ->
        ChatRequest.status cr <> pending ->
        exists cr',
          findById ChatRequest._id i (chatRequests (run db rs)) = Some cr'
          /\ ChatRequest.status cr' <> pending)
  /\ (forall db i cr,
        findById ChatRequest._id i (chatRequests db) = Some cr ->
        (exists cr',
           findById ChatRequest._id i
             (chatRequests (fst (declineChatRequest db (ChatRequest.owner cr) i)))
             = Some cr'
           /\ ChatRequest.status cr' = declined)
        /\ (ChatRequest.answerCorrect cr = true ->
            exists cr',
              findById ChatRequest._id i
                (chatRequests (fst (approveChatRequest db (ChatRequest.owner cr) i)))
                = Some cr'
              /\ ChatRequest.status cr' = approved)).
Proof.
  split; [|split].
  - intros db r i cr Hwf Hf.
    destruct (handle_record db r i cr Hwf Hf) as (cr' & Hf' & H).
    exists cr'. split; [exact Hf'|].
    destruct H as [->|Hu]; [now left|].
    apply findById_In in Hf as [_ <-]. exact (status_Update _ _ _ Hu).
  - intros db rs. exact (not_pending_run rs db).
  - intros db i cr Hf. split.
    + unfold declineChatRequest. rewrite Hf, Nat.eqb_refl. simpl.
      exists (ChatRequest.set_status declined cr). split; [|reflexivity].
      now apply (findById_resave _ i cr).
    + intros Ha. unfold approveChatRequest. rewrite Hf, Nat.eqb_refl, Ha. simpl.
      destruct (find _ (conversations db)) as [cv|]; simpl.
      * exists (ChatRequest.set_conversation (Conversation._id cv)
                  (ChatRequest.set_status approved cr)).
        split; [|reflexivity]. now apply (findById_resave _ i cr).
      * exists (ChatRequest.set_conversation (nextId db)
                  (ChatRequest.set_status approved cr)).
        split; [|reflexivity]. now apply (findById_resave _ i cr).
Qed.

Lemma status_transitions_witness :
  exists cr',
    findById ChatRequest._id 100
      (chatRequests (fst (handle dbApproved (Decline owner0 100)))) = Some cr'
    /\ (ChatRequest.status cr' = ChatRequest.status crApproved
        \/ (ChatRequest.status cr' = approved
            /\ Decline owner0 100 = Approve (ChatRequest.owner crApproved) 100
            /\ ChatRequest.answerCorrect crApproved = true)
        \/ (ChatRequest.status cr' = declined
            /\ Decline owner0 100 = Decline (ChatRequest.owner crApproved) 100)).
Proof.
  destruct status_transitions as [H _].
  apply (H dbApproved (Decline owner0 100) 100 crApproved).
  - apply wfLedger_run, wfLedger_fresh.
  - reflexivity.
Defined.

(** C3 fails as stated: the owner's decline moves an approved record to
    declined, and the owner's approval moves a declined record to
    approved. *)
Lemma terminal_status_counterexample :
  (option_map ChatRequest.status
     (findById ChatRequest._id 100 (chatRequests dbApproved)) = Some approved
   /\ option_map ChatRequest.status
        (findById ChatRequest._id 100
           (chatRequests (run dbApproved [Decline owner0 100]))) = Some declined)
  /\ (option_map ChatRequest.status
        (findById ChatRequest._id 100
           (chatRequests (run dbApproved [Decline owner0 100; Approve owner0 100])))
      = Some approved).
Proof. repeat split; reflexivity. Qed.

(** ** The owner of a protected item at the gate *)

Lemma noSelfRequest_handle db r :
  noSelfRequest db -> noSelfRequest (fst (handle db r)).
Proof.
  intros H cr it. pose proof (handle_frame db r) as [Hit _]. rewrite Hit.
  destruct (handle_ledger db r) as [E|cr0 cr0' Hin Hu E|cr' item a E _ _ _ _ Hi Hne _ _];
    rewrite E; intros Hx Hf.
  - exact (H cr it Hx Hf).
  - apply In_saveDoc in Hx as [->|Hx]; [|exact (H cr it Hx Hf)].
    destruct (Update_triple _ _ _ Hu) as (Ei & Er & _).
    rewrite Er. rewrite Ei in Hf. exact (H cr0 it Hin Hf).
  - apply in_app_or in Hx as [Hx|[<-|[]]]; [exact (H cr it Hx Hf)|].
    rewrite Hi in Hf. injection Hf as <-. exact Hne.
Qed.

Lemma noSelfRequest_run rs : forall db, noSelfRequest db -> noSelfRequest (run db rs).
Proof.
  induction rs as [|r rs IH]; simpl; [trivial|].
  intros db H. apply IH, noSelfRequest_handle, H.
Qed.

Lemma items_run rs : forall db, items (run db rs) = items db.
Proof.
  induction rs as [|r rs IH]; simpl; [reflexivity|].
  intros db. rewrite IH. apply handle_frame.
Qed.

Lemma populateItem_id db conv it :
  populateItem db conv = Some it ->
  findById Item._id (Item._id it) (items db) = Some it.
Proof.
  unfold populateItem. destruct (Conversation.item conv) as [i|]; [|discriminate].
  intros H. pose proof (findById_In _ _ _ _ H) as [_ E]. now rewrite E.
Qed.

(** C10: after every sequence of requests on a ledger that starts empty,
    a message sent by the owner of an item that has a verification
    question, in a conversation on that item, is refused and nothing is
    stored; when the owner takes part in the conversation the refusal is
    the one of the verification gate. *)
Theorem owner_send_denied its n rs user conversationId content conv it :
  let db := run (freshDB its n) rs in
  findById Conversation._id conversationId (conversations db) = Some conv ->
  populateItem db conv = Some it ->
  JS.truthy (Item.verificationQuestion it) = true ->
  user = Item.user it ->
  fst (sendMessage db user conversationId content) = db
  /\ statusCode (snd (sendMessage db user conversationId content)) = 403
  /\ (includes (Conversation.participants conv) user = true ->
      snd (sendMessage db user conversationId content) = res 403 (JMessage notVerified)).
Proof.
  intros db Hc Hp Hq Hu.
  assert (Hgate : verificationGate db user (populateItem db conv) = false).
  { rewrite Hp. unfold verificationGate. rewrite Hq.
    destruct (find _ (chatRequests db)) as [cr|] eqn:Hf; [exfalso|reflexivity].
    apply find_some in Hf as [Hin Hb]. unfold byItemRequesterStatus in Hb.
    apply andb_prop in Hb as [Hb _]. apply andb_prop in Hb as [Hi Hr].
    apply Nat.eqb_eq in Hi, Hr.
    assert (Hns : noSelfRequest db).
    { apply noSelfRequest_run. intros ? ? []. }
    apply (Hns cr it Hin); [|congruence].
    rewrite Hi. exact (populateItem_id _ _ _ Hp). }
  unfold sendMessage. rewrite Hc, Hgate.
  destruct (includes (Conversation.participants conv) user); simpl.
  - repeat split; reflexivity.
  - repeat split; try reflexivity. discriminate.
Qed.

Lemma owner_send_denied_witness :
  fst (sendMessage dbApproved owner0 101 "hello") = dbApproved
  /\ statusCode (snd (sendMessage dbApproved owner0 101 "hello")) = 403
  /\ (includes [requester0; owner0] owner0 = true ->
      snd (sendMessage dbApproved owner0 101 "hello") = res 403 (JMessage notVerified)).
Proof.
  apply (owner_send_denied [item0] 100
           [SubmitAnswer requester0 10 "BLUE "; Approve owner0 100]
           owner0 101 "hello" (Conversation.mk 101 [requester0; owner0] (Some 10) None)
           item0);
    reflexivity.
Defined.

(** ** The gate of [sendMessage] *)

Lemma Status_eqb_eq a b : Status_eqb a b = true <-> a = b.
Proof. destruct a, b; simpl; split; intros H; try reflexivity; discriminate. Qed.

Lemma gate_query_spec db i u :
  (exists cr, find (byItemRequesterStatus i u approved) (chatRequests db) = Some cr)
  <-> approvedFor db i u.
Proof.
  unfold approvedFor, byItemRequesterStatus. split.
  - intros [cr H]. apply find_some in H as [Hin Hb].
    apply andb_prop in Hb as [Hb Hs]. apply andb_prop in Hb as [Hi Hr].
    exists cr. rewrite Nat.eqb_eq in Hi, Hr. rewrite Status_eqb_eq in Hs. auto.
  - intros (cr & Hin & Hi & Hr & Hs).
    destruct (find _ (chatRequests db)) as [x|] eqn:Hf; [eauto|].
    pose proof (find_none _ _ Hf cr Hin) as Hb. simpl in Hb.
    rewrite Hi, Hr, Hs, !Nat.eqb_refl in Hb. discriminate.
Qed.

Lemma verificationGate_spec db user conv :
  verificationGate db user (populateItem db conv) = true <-> gateOpen db user conv.
Proof.
  unfold gateOpen, verificationGate.
  destruct (populateItem db conv) as [it|]; [|tauto].
  destruct (JS.truthy (Item.verificationQuestion it)); [|tauto].
  rewrite <- gate_query_spec.
  destruct (find _ (chatRequests db)) as [cr|].
  - split; [eauto | reflexivity].
  - split; [discriminate | intros [H|[cr H]]; discriminate].
Qed.

Lemma sendMessage_participant db user conversationId content conv :
  findById Conversation._id conversationId (conversations db) = Some conv ->
  includes (Conversation.participants conv) user = true ->
  (verificationGate db user (populateItem db conv) = true ->
   statusCode (snd (sendMessage db user conversationId content)) = 201)
  /\ (verificationGate db user (populateItem db conv) = false ->
      sendMessage db user conversationId content = (db, res 403 (JMessage notVerified))).
Proof.
  intros Hc Hp. unfold sendMessage. rewrite Hc, Hp. simpl.
  split; intros ->; reflexivity.
Qed.

(** C1, as the code has it: in an existing conversation of which the
    sender is a participant, the message is accepted exactly when the
    conversation has no item, or its item has no verification question,
    or some record with that item and the sender as requester is approved
    (owner and conversation of the record are not looked at); otherwise
    the answer is the 403 of the gate and nothing is stored. After the
    owner's decline of the only record of a requester on an item, the
    requester's messages on that item are refused, whatever
    [answerCorrect] is. *)
Theorem send_gate :
  (forall db user conversationId content conv,
     findById Conversation._id conversationId (conversations db) = Some conv ->
     includes (Conversation.participants conv) user = true ->
     (statusCode (snd (sendMessage db user conversationId content)) = 201
      <-> gateOpen db user conv)
     /\ (~ gateOpen db user conv ->
         sendMessage db user conversationId content
           = (db, res 403 (JMessage notVerified))))
  /\ (forall db user chatRequestId cr conversationId content conv it,
        wfLedger db ->
        findById ChatRequest._id chatRequestId (chatRequests db) = Some cr ->
        ChatRequest.owner cr = user ->
        (forall cr', In cr' (chatRequests db) ->
                     ChatRequest.item cr' = ChatRequest.item cr ->
                     ChatRequest.requester cr' = ChatRequest.requester cr ->
                     ChatRequest._id cr' = chatRequestId) ->
        let db' := fst (declineChatRequest db user chatRequestId) in
        findById Conversation._id conversationId (conversations db') = Some conv ->
        includes (Conversation.participants conv) (ChatRequest.requester cr) = true ->
        populateItem db' conv = Some it ->
        Item._id it = ChatRequest.item cr ->
        JS.truthy (Item.verificationQuestion it) = true ->
        sendMessage db' (ChatRequest.requester cr) conversationId content
          = (db', res 403 (JMessage notVerified))).
Proof.
  split.
  - intros db user cid content conv Hc Hp.
    destruct (sendMessage_participant db user cid content conv Hc Hp) as [Hy Hn].
    rewrite <- verificationGate_spec.
    destruct (verificationGate db user (populateItem db conv)).
    + split; [|intros H; now elim H]. split; auto.
    + rewrite (Hn eq_refl). simpl. split; [|reflexivity].
      split; discriminate.
  - intros db user crId cr cid content conv it [ND _] Hf Ho Huniq db' Hc Hp Hpop Hit Hq.
    apply (sendMessage_participant db' _ cid content conv Hc Hp).
    rewrite Hpop. unfold verificationGate. rewrite Hq.
    destruct (find _ (chatRequests db')) as [x|] eqn:Hx; [exfalso|reflexivity].
    assert (Hap : approvedFor db' (Item._id it) (ChatRequest.requester cr))
      by (apply gate_query_spec; eauto).
    destruct Hap as (y & Hin & Hi & Hr & Hs).
    unfold db', declineChatRequest in Hin. rewrite Hf, Ho, Nat.eqb_refl in Hin.
    simpl in Hin. pose proof (findById_In _ _ _ _ Hf) as [Hcr Hid].
    destruct (saveDoc_split ChatRequest._id (ChatRequest.set_status declined cr)
                cr _ ND Hcr eq_refl) as (l1 & l2 & E1 & E2).
    rewrite E2 in Hin. apply in_app_or in Hin as [Hin|[<-|Hin]].
    + assert (Hy : ChatRequest._id y = ChatRequest._id cr).
      { rewrite Hid. apply Huniq; [|congruence..].
        rewrite E1. apply in_or_app. now left. }
      rewrite E1, map_app in ND. simpl in ND. apply NoDup_remove_2 in ND.
      apply ND, in_or_app. left. rewrite <- Hy. now apply in_map.
    + discriminate.
    + assert (Hy : ChatRequest._id y = ChatRequest._id cr).
      { rewrite Hid. apply Huniq; [|congruence..].
        rewrite E1. apply in_or_app. right. now right. }
      rewrite E1, map_app in ND. simpl in ND. apply NoDup_remove_2 in ND.
      apply ND, in_or_app. right. rewrite <- Hy. now apply in_map.
Qed.

Lemma send_gate_witness :
  ((statusCode (snd (sendMessage dbApproved requester0 101 "hi")) = 201
    <-> gateOpen dbApproved requester0
          (Conversation.mk 101 [requester0; owner0] (Some 10) None))
   /\ (~ gateOpen dbApproved requester0
           (Conversation.mk 101 [requester0; owner0] (Some 10) None) ->
       sendMessage dbApproved requester0 101 "hi"
         = (dbApproved, res 403 (JMessage notVerified))))
  /\ (let db' := fst (declineChatRequest dbApproved owner0 100) in
      sendMessage db' requester0 101 "hi" = (db', res 403 (JMessage notVerified))).
Proof.
  destruct send_gate as [H1 H2]. split.
  - apply (H1 dbApproved requester0 101 "hi"); reflexivity.
  - apply (H2 dbApproved owner0 100 crApproved 101 "hi"
             (Conversation.mk 101 [requester0; owner0] (Some 10) None) item0);
      try reflexivity.
    + apply wfLedger_run, wfLedger_fresh.
    + intros cr' [<-|[]] _ _. reflexivity.
Defined.

(** C1 fails as stated: the approved requester of scenario A writes to a
    second conversation on the item, while the one approved record points
    to the first conversation. *)
Lemma send_gate_counterexample :
  findById Conversation._id 102 (conversations dbSecondChannel)
    = Some (Conversation.mk 102 [requester0; 3] (Some 10) None)
  /\ JS.truthy (Item.verificationQuestion item0) = true
  /\ statusCode (snd (sendMessage dbSecondChannel requester0 102 "hi")) = 201
  /\ ~ (exists cr,
          In cr (chatRequests dbSecondChannel)
          /\ ChatRequest.item cr = 10 /\ ChatRequest.requester cr = requester0
          /\ ChatRequest.owner cr = owner0 /\ ChatRequest.status cr = approved
          /\ ChatRequest.conversation cr = Some 102).
Proof.
  repeat split; try reflexivity.
  intros (cr & [<-|[]] & _ & _ & _ & _ & H). discriminate.
Qed.

(** ** Repeated approval *)

Lemma byParticipantsItem_pair r o i :
  byParticipantsItem r o (Some i) (Conversation.mk 0 [r; o] (Some i) None) = true.
Proof.
  unfold byParticipantsItem, includes. simpl.
  rewrite !Nat.eqb_refl. simpl. now rewrite orb_true_r.
Qed.

(** The repetition of an approval that succeeded. *)
Lemma approve_again db user chatRequestId cr db1 msg conv :
  findById ChatRequest._id chatRequestId (chatRequests db) = Some cr ->
  approveChatRequest db user chatRequestId = (db1, res 200 (JApproved msg conv)) ->
  exists db2,
    approveChatRequest db1 user chatRequestId = (db2, res 200 (JApproved msg conv))
    /\ conversations db2 = conversations db1
    /\ chatRequests db2 = chatRequests db1
    /\ findById ChatRequest._id chatRequestId (chatRequests db2)
       = Some (ChatRequest.set_conversation conv (ChatRequest.set_status approved cr))
    /\ List.length (conversations db2) <= S (List.length (conversations db))
    /\ countChannels db2 (ChatRequest.requester cr) (ChatRequest.owner cr)
         (ChatRequest.item cr)
       = Nat.max 1 (countChannels db (ChatRequest.requester cr)
                      (ChatRequest.owner cr) (ChatRequest.item cr)).
Proof.
  intros Hf H. unfold approveChatRequest in H. rewrite Hf in H.
  destruct (ChatRequest.owner cr =? user) eqn:Ho; [|discriminate].
  destruct (ChatRequest.answerCorrect cr) eqn:Ha; [|discriminate].
  simpl in H. unfold countChannels.
  set (q := byParticipantsItem (ChatRequest.requester cr) (ChatRequest.owner cr)
              (Some (ChatRequest.item cr))) in *.
  destruct (find q (conversations db)) as [cv|] eqn:Hc.
  - simpl in H. injection H as <- <- <-.
    set (cr' := ChatRequest.set_conversation (Conversation._id cv)
                  (ChatRequest.set_status approved cr)).
    assert (Hf' : findById ChatRequest._id chatRequestId
                    (saveDoc ChatRequest._id cr' (chatRequests db)) = Some cr')
      by now apply (findById_resave _ chatRequestId cr).
    eexists. unfold approveChatRequest. simpl chatRequests. simpl conversations.
    rewrite Hf'. simpl ChatRequest.owner. simpl ChatRequest.answerCorrect.
    rewrite Ho, Ha. simpl. fold q. rewrite Hc. simpl.
    assert (Hsame : saveDoc ChatRequest._id cr'
                      (saveDoc ChatRequest._id cr' (chatRequests db))
                    = saveDoc ChatRequest._id cr' (chatRequests db)).
    { apply saveDoc_same. pose proof (findById_In _ _ _ _ Hf) as [_ Hid].
      change (ChatRequest._id cr') with (ChatRequest._id cr). now rewrite Hid. }
    split; [reflexivity|]. simpl.
    split; [reflexivity|]. split; [exact Hsame|].
    split; [exact (eq_trans (f_equal (findById ChatRequest._id chatRequestId) Hsame) Hf')|].
    split; [lia|].
    pose proof (find_Some_filter _ _ _ Hc) as Hl.
    destruct (List.length (filter q (conversations db))); [lia | reflexivity].
  - simpl in H. injection H as <- <- <-.
    set (cv := Conversation.mk (nextId db)
                 [ChatRequest.requester cr; ChatRequest.owner cr]
                 (Some (ChatRequest.item cr)) None).
    set (cr' := ChatRequest.set_conversation (nextId db)
                  (ChatRequest.set_status approved cr)).
    assert (Hf' : findById ChatRequest._id chatRequestId
                    (saveDoc ChatRequest._id cr' (chatRequests db)) = Some cr')
      by now apply (findById_resave _ chatRequestId cr).
    assert (Hq : q cv = true) by apply byParticipantsItem_pair.
    assert (Hc' : find q (conversations db ++ [cv]) = Some cv).
    { rewrite find_app_None by exact Hc. simpl. now rewrite Hq. }
    eexists. unfold approveChatRequest. simpl chatRequests. simpl conversations.
    rewrite Hf'. simpl ChatRequest.owner. simpl ChatRequest.answerCorrect.
    rewrite Ho, Ha. simpl. fold q. rewrite Hc'. simpl.
    assert (Hsame : saveDoc ChatRequest._id cr'
                      (saveDoc ChatRequest._id cr' (chatRequests db))
                    = saveDoc ChatRequest._id cr' (chatRequests db)).
    { apply saveDoc_same. pose proof (findById_In _ _ _ _ Hf) as [_ Hid].
      change (ChatRequest._id cr') with (ChatRequest._id cr). now rewrite Hid. }
    split; [reflexivity|]. simpl.
    split; [reflexivity|]. split; [exact Hsame|].
    split; [exact (eq_trans (f_equal (findById ChatRequest._id chatRequestId) Hsame) Hf')|].
    split; [rewrite length_app; simpl; lia|].
    rewrite filter_app, (find_None_filter _ _ Hc). simpl. now rewrite Hq.
Qed.

(** C4: the approval by the owner of a correctly answered record succeeds,
    and the same approval repeated succeeds too and answers with the same
    conversation; the repetition creates no conversation and rewrites no
    record; the two calls together create at most one conversation, and
    the conversations matching the triple are one if there was none or one
    before. *)
Theorem approve_twice db user chatRequestId cr :
  findById ChatRequest._id chatRequestId (chatRequests db) = Some cr ->
  ChatRequest.owner cr = user ->
  ChatRequest.answerCorrect cr = true ->
  exists db1 db2 conv,
    approveChatRequest db user chatRequestId
      = (db1, res 200 (JApproved "Chat request approved" conv))
    /\ approveChatRequest db1 user chatRequestId
       = (db2, res 200 (JApproved "Chat request approved" conv))
    /\ conversations db2 = conversations db1
    /\ chatRequests db2 = chatRequests db1
    /\ findById ChatRequest._id chatRequestId (chatRequests db2)
       = Some (ChatRequest.set_conversation conv (ChatRequest.set_status approved cr))
    /\ List.length (conversations db2) <= S (List.length (conversations db))
    /\ countChannels db2 (ChatRequest.requester cr) (ChatRequest.owner cr)
         (ChatRequest.item cr)
       = Nat.max 1 (countChannels db (ChatRequest.requester cr)
                      (ChatRequest.owner cr) (ChatRequest.item cr)).
Proof.
  intros Hf Ho Ha.
  assert (H1 : exists db1 conv,
             approveChatRequest db user chatRequestId
             = (db1, res 200 (JApproved "Chat request approved" conv))).
  { unfold approveChatRequest. rewrite Hf, Ho, Nat.eqb_refl, Ha. simpl.
    destruct (find _ (conversations db)); simpl; eauto. }
  destruct H1 as (db1 & conv & H1).
  destruct (approve_again db user chatRequestId cr db1 _ conv Hf H1) as (db2 & H2).
  exists db1, db2, conv. split; [exact H1 | exact H2].
Qed.

Lemma approve_twice_witness :
  let db := run db0 [SubmitAnswer requester0 10 "BLUE "] in
  exists db1 db2 conv,
    approveChatRequest db owner0 100
      = (db1, res 200 (JApproved "Chat request approved" conv))
    /\ approveChatRequest db1 owner0 100
       = (db2, res 200 (JApproved "Chat request approved" conv))
    /\ conversations db2 = conversations db1
    /\ chatRequests db2 = chatRequests db1
    /\ findById ChatRequest._id 100 (chatRequests db2)
       = Some (ChatRequest.set_conversation conv
                 (ChatRequest.set_status approved
                    (ChatRequest.mk 100 10 requester0 owner0 "What color?" "blue"
                       (Some "blue") true pending None)))
    /\ List.length (conversations db2) <= S (List.length (conversations db))
    /\ countChannels db2 requester0 owner0 10
       = Nat.max 1 (countChannels db requester0 owner0 10).
Proof.
  apply (approve_twice (run db0 [SubmitAnswer requester0 10 "BLUE "]) owner0 100
           (ChatRequest.mk 100 10 requester0 owner0 "What color?" "blue"
              (Some "blue") true pending None));
    reflexivity.
Defined.

(** ** Repeated submission *)

Lemma find_split {A} (f : A -> bool) l x :
  find f l = Some x ->
  exists l1 l2, l = l1 ++ x :: l2 /\ find f l1 = None /\ f x = true.
Proof.
  induction l as [|y l IH]; simpl; [discriminate|].
  destruct (f y) eqn:E.
  - intros [= ->]. exists [], l. auto.
  - intros H. destruct (IH H) as (l1 & l2 & -> & H1 & H2).
    exists (y :: l1), l2. simpl. rewrite E. auto.
Qed.

Lemma saveDoc_at {Doc} (docId : Doc -> ObjectId) d x l1 l2 :
  NoDup (map docId (l1 ++ x :: l2)) -> docId d = docId x ->
  saveDoc docId d (l1 ++ x :: l2) = l1 ++ d :: l2.
Proof.
  intros ND E. induction l1 as [|y l1 IH]; simpl in *.
  - now rewrite E, Nat.eqb_refl.
  - inversion ND as [|? ? Hy ND']; subst.
    destruct (docId y =? docId d) eqn:Ey; [|now rewrite IH].
    apply Nat.eqb_eq in Ey. exfalso. apply Hy.
    rewrite map_app. apply in_or_app. right. left. congruence.
Qed.

Lemma count_middle {A} (f : A -> bool) l1 l2 x y :
  f x = f y ->
  List.length (filter f (l1 ++ x :: l2)) = List.length (filter f (l1 ++ y :: l2)).
Proof.
  intros E. rewrite !filter_app, !length_app. simpl. rewrite E.
  destruct (f y); reflexivity.
Qed.

(** A re-submission rewrites the record it found, in place. *)
Lemma resubmit_frame db user itemId answer item cr :
  wfLedger db ->
  findById Item._id itemId (items db) = Some item ->
  JS.truthy (Item.verificationQuestion item) = true ->
  user <> Item.user item ->
  find (byTriple itemId user (Item.user item)) (chatRequests db) = Some cr ->
  exists l1 l2,
    chatRequests db = l1 ++ cr :: l2
    /\ find (byTriple itemId user (Item.user item)) l1 = None
    /\ chatRequests (fst (submitVerificationAnswer db user itemId answer))
       = l1 ++ resubmitted cr answer item :: l2.
Proof.
  intros [ND _] Hi Hq Hu Hf.
  rewrite (submit_guarded _ _ _ _ _ Hi Hq Hu), Hf. cbv zeta.
  destruct (find_split _ _ _ Hf) as (l1 & l2 & E & Hn & _).
  exists l1, l2. split; [exact E|]. split; [exact Hn|].
  unfold fst. rewrite chatRequests_notifyOwner. simpl chatRequests.
  rewrite E in *. now apply saveDoc_at.
Qed.

Lemma byTriple_resubmitted i r o cr answer item :
  byTriple i r o (resubmitted cr answer item) = byTriple i r o cr.
Proof. reflexivity. Qed.

Lemma submit_ok_guards db user itemId answer :
  statusCode (snd (submitVerificationAnswer db user itemId answer)) = 200 ->
  exists item,
    findById Item._id itemId (items db) = Some item
    /\ JS.truthy (Item.verificationQuestion item) = true
    /\ user <> Item.user item.
Proof.
  unfold submitVerificationAnswer.
  destruct (findById Item._id itemId (items db)) as [item|]; [|discriminate].
  destruct (JS.truthy (Item.verificationQuestion item)) eqn:Hq; [|discriminate].
  simpl negb. cbv iota.
  destruct (user =? Item.user item) eqn:E; [discriminate|].
  apply Nat.eqb_neq in E. intros _. exists item. auto.
Qed.

(** One successful submission on a ledger with at most one record of the
    triple leaves exactly one, which carries the submission. *)
Lemma submit_once db user itemId answer item :
  wfLedger db ->
  findById Item._id itemId (items db) = Some item ->
  countRequests db itemId user (Item.user item) <= 1 ->
  statusCode (snd (submitVerificationAnswer db user itemId answer)) = 200 ->
  let db' := fst (submitVerificationAnswer db user itemId answer) in
  countRequests db' itemId user (Item.user item) = 1
  /\ exists cr,
       find (byTriple itemId user (Item.user item)) (chatRequests db') = Some cr
       /\ ChatRequest.submittedAnswer cr = Some (normalize answer)
       /\ ChatRequest.answerCorrect cr = evaluate answer item.
Proof.
  intros Hwf Hi Hc Hok db'.
  destruct (submit_ok_guards _ _ _ _ Hok) as (item' & Hi' & Hq & Hu).
  rewrite Hi in Hi'. injection Hi' as <-.
  unfold countRequests in *.
  destruct (find (byTriple itemId user (Item.user item)) (chatRequests db))
    as [cr|] eqn:Hf.
  - destruct (resubmit_frame db user itemId answer item cr Hwf Hi Hq Hu Hf)
      as (l1 & l2 & E & Hn & E').
    fold db' in E'. rewrite E'. split.
    + pose proof (find_Some_filter _ _ _ Hf) as Hl.
      rewrite (count_middle _ l1 l2 _ cr) by apply byTriple_resubmitted.
      rewrite <- E. lia.
    + exists (resubmitted cr answer item).
      rewrite (find_app_None _ _ _ Hn). simpl.
      rewrite byTriple_resubmitted.
      destruct (find_split _ _ _ Hf) as (_ & _ & _ & _ & ->). auto.
  - unfold db'. rewrite (submit_guarded _ _ _ _ _ Hi Hq Hu), Hf in Hok |- *.
    destruct (JS.truthy (ChatRequest.setLowercaseTrim _)); [|discriminate].
    cbv zeta. unfold fst. rewrite chatRequests_notifyOwner. simpl chatRequests.
    assert (Hb : forall cr', ChatRequest.item cr' = itemId ->
                             ChatRequest.requester cr' = user ->
                             ChatRequest.owner cr' = Item.user item ->
                             byTriple itemId user (Item.user item) cr' = true).
    { intros cr' E1 E2 E3. unfold byTriple. now rewrite E1, E2, E3, !Nat.eqb_refl. }
    split.
    + rewrite filter_app, (find_None_filter _ _ Hf). simpl.
      now rewrite Hb.
    + eexists. rewrite (find_app_None _ _ _ Hf). simpl. rewrite Hb by reflexivity.
      split; [reflexivity|]. split; reflexivity.
Qed.

Lemma submit_many answers : forall db user itemId item,
  wfLedger db ->
  findById Item._id itemId (items db) = Some item ->
  countRequests db itemId user (Item.user item) <= 1 ->
  answers <> [] ->
  Forall (fun r => statusCode r = 200)
    (responses db (submissions user itemId answers)) ->
  let db' := run db (submissions user itemId answers) in
  countRequests db' itemId user (Item.user item) = 1
  /\ exists cr,
       find (byTriple itemId user (Item.user item)) (chatRequests db') = Some cr
       /\ ChatRequest.submittedAnswer cr = Some (normalize (last answers ""))
       /\ ChatRequest.answerCorrect cr = evaluate (last answers "") item.
Proof.
  induction answers as [|a rest IH]; intros db user itemId item Hwf Hi Hc Hne Hok;
    [now elim Hne|].
  simpl in Hok. inversion Hok as [|? ? Ha Hrest]; subst.
  destruct (submit_once db user itemId a item Hwf Hi Hc Ha) as [H1 H2].
  destruct rest as [|b rest]; [exact (conj H1 H2)|].
  change (last (a :: b :: rest) "") with (last (b :: rest) "").
  apply (IH (fst (submitVerificationAnswer db user itemId a))).
  - apply (wfLedger_handle db (SubmitAnswer user itemId a) Hwf).
  - pose proof (handle_frame db (SubmitAnswer user itemId a)) as [E _].
    simpl in E. now rewrite E.
  - rewrite H1. lia.
  - discriminate.
  - exact Hrest.
Qed.

Lemma byTriple_true i r o cr :
  byTriple i r o cr = true ->
  ChatRequest.item cr = i /\ ChatRequest.requester cr = r /\ ChatRequest.owner cr = o.
Proof.
  unfold byTriple. intros H. apply andb_prop in H as [H Ho].
  apply andb_prop in H as [Hi Hr]. rewrite !Nat.eqb_eq in *. auto.
Qed.

Lemma uniqueTriples_handle db r :
  wfLedger db -> uniqueTriples db -> uniqueTriples (fst (handle db r)).
Proof.
  intros [ND _] H i u o. specialize (H i u o). unfold countRequests in *.
  destruct (handle_ledger db r)
    as [E|cr cr' Hin Hu E|cr' item a E _ _ _ _ _ _ _ Hf]; rewrite E.
  - exact H.
  - destruct (saveDoc_split ChatRequest._id cr' cr _ ND Hin (Update_id _ _ _ Hu))
      as (l1 & l2 & E1 & E2).
    rewrite E2, (count_middle _ l1 l2 cr' cr), <- E1; [exact H|].
    destruct (Update_triple _ _ _ Hu) as (Ei & Er & Eo).
    unfold byTriple. now rewrite Ei, Er, Eo.
  - rewrite filter_app, length_app. simpl.
    destruct (byTriple i u o cr') eqn:Hb; simpl; [|lia].
    apply byTriple_true in Hb as (<- & <- & <-).
    rewrite (find_None_filter _ _ Hf). simpl. lia.
Qed.

Lemma uniqueTriples_run rs : forall db,
  wfLedger db -> uniqueTriples db -> uniqueTriples (run db rs).
Proof.
  induction rs as [|r rs IH]; simpl; [trivial|].
  intros db Hwf H. apply IH; [apply wfLedger_handle | apply uniqueTriples_handle]; auto.
Qed.

Lemma conversations_notifyOwner b o c db :
  conversations (notifyOwner b o c db) = conversations db.
Proof. destruct b; reflexivity. Qed.

(** C6: after any sequence of requests on a ledger that starts empty, one
    or more successful submissions of a requester on an item leave exactly
    one record of the triple, and it carries the last submission; a
    re-submission replaces the stored record in place by one that differs
    in [submittedAnswer] and [answerCorrect] only, and leaves
    the other records and the conversations as they were; in scenario C
    the wrong answer after the approval leaves the record approved, with
    its conversation, and [answerCorrect] false. *)
Theorem resubmission_overwrites :
  (forall its n history user itemId item answers,
     let db := run (freshDB its n) history in
     findById Item._id itemId (items db) = Some item ->
     answers <> [] ->
     Forall (fun r => statusCode r = 200)
       (responses db (submissions user itemId answers)) ->
     let db' := run db (submissions user itemId answers) in
     countRequests db' itemId user (Item.user item) = 1
     /\ exists cr,
          find (byTriple itemId user (Item.user item)) (chatRequests db') = Some cr
          /\ ChatRequest.submittedAnswer cr = Some (normalize (last answers ""))
          /\ ChatRequest.answerCorrect cr = evaluate (last answers "") item)
  /\ (forall db user itemId answer item cr,
        wfLedger db ->
        findById Item._id itemId (items db) = Some item ->
        JS.truthy (Item.verificationQuestion item) = true ->
        user <> Item.user item ->
        find (byTriple itemId user (Item.user item)) (chatRequests db) = Some cr ->
        let db' := fst (submitVerificationAnswer db user itemId answer) in
        exists l1 l2 cr',
          chatRequests db = l1 ++ cr :: l2
          /\ chatRequests db' = l1 ++ cr' :: l2
          /\ conversations db' = conversations db
          /\ ChatRequest.submittedAnswer cr' = Some (normalize answer)
          /\ ChatRequest.answerCorrect cr' = evaluate answer item
          /\ ChatRequest.status cr' = ChatRequest.status cr
          /\ ChatRequest.conversation cr' = ChatRequest.conversation cr
          /\ ChatRequest.verificationQuestion cr' = ChatRequest.verificationQuestion cr
          /\ ChatRequest.correctAnswer cr' = ChatRequest.correctAnswer cr
          /\ ChatRequest._id cr' = ChatRequest._id cr
          /\ ChatRequest.item cr' = ChatRequest.item cr
          /\ ChatRequest.requester cr' = ChatRequest.requester cr
          /\ ChatRequest.owner cr' = ChatRequest.owner cr)
  /\ chatRequests (run dbApproved [SubmitAnswer requester0 10 "green"])
     = [ChatRequest.mk 100 10 requester0 owner0 "What color?" "blue"
          (Some "green") false approved (Some 101)].
Proof.
  split; [|split; [|reflexivity]].
  - intros its n history user itemId item answers db Hi Hne Hok.
    apply (submit_many answers db user itemId item); auto.
    + apply wfLedger_run, wfLedger_fresh.
    + apply uniqueTriples_run; [apply wfLedger_fresh | intros i r o; unfold countRequests; simpl; lia].
  - intros db user itemId answer item cr Hwf Hi Hq Hu Hf db'.
    destruct (resubmit_frame db user itemId answer item cr Hwf Hi Hq Hu Hf)
      as (l1 & l2 & E & _ & E').
    exists l1, l2, (resubmitted cr answer item).
    split; [exact E|]. split; [exact E'|]. split; [|repeat split; reflexivity].
    unfold db'. rewrite (submit_guarded _ _ _ _ _ Hi Hq Hu), Hf. cbv zeta.
    unfold fst. now rewrite conversations_notifyOwner.
Qed.

Lemma resubmission_overwrites_witness :
  (let db' := run dbApproved (submissions requester0 10 ["red"; "BLUE "; "green"]) in
   countRequests db' 10 requester0 (Item.user item0) = 1
   /\ exists cr,
        find (byTriple 10 requester0 (Item.user item0)) (chatRequests db') = Some cr
        /\ ChatRequest.submittedAnswer cr
           = Some (normalize (last ["red"; "BLUE "; "green"] ""))
        /\ ChatRequest.answerCorrect cr
           = evaluate (last ["red"; "BLUE "; "green"] "") item0)
  /\ (let db' := fst (submitVerificationAnswer dbApproved requester0 10 "green") in
      exists l1 l2 cr',
        chatRequests dbApproved = l1 ++ crApproved :: l2
        /\ chatRequests db' = l1 ++ cr' :: l2
        /\ conversations db' = conversations dbApproved
        /\ ChatRequest.submittedAnswer cr' = Some (normalize "green")
        /\ ChatRequest.answerCorrect cr' = evaluate "green" item0
        /\ ChatRequest.status cr' = ChatRequest.status crApproved
        /\ ChatRequest.conversation cr' = ChatRequest.conversation crApproved
        /\ ChatRequest.verificationQuestion cr'
           = ChatRequest.verificationQuestion crApproved
        /\ ChatRequest.correctAnswer cr' = ChatRequest.correctAnswer crApproved
        /\ ChatRequest._id cr' = ChatRequest._id crApproved
        /\ ChatRequest.item cr' = ChatRequest.item crApproved
        /\ ChatRequest.requester cr' = ChatRequest.requester crApproved
        /\ ChatRequest.owner cr' = ChatRequest.owner crApproved).
Proof.
  destruct resubmission_overwrites as [H1 [H2 _]]. split.
  - apply (H1 [item0] 100 [SubmitAnswer requester0 10 "BLUE "; Approve owner0 100]
             requester0 10 item0 ["red"; "BLUE "; "green"]).
    + reflexivity.
    + discriminate.
    + repeat constructor.
  - apply (H2 dbApproved requester0 10 "green" item0 crApproved).
    + apply wfLedger_run, wfLedger_fresh.
    + reflexivity.
    + reflexivity.
    + vm_compute. discriminate.
    + reflexivity.
Defined.

(** * Further properties *)

(** ** The stored answer of an item *)

(** X1: when the owner's answer was stored through the setters of the
    Item schema, a submission is judged correct exactly when it equals the
    owner's raw answer up to case and surrounding white space. *)
Theorem owner_answer_round_trip (raw answer : string) (it : Item.t) :
  evaluate answer (Item_set_verificationAnswer raw it) = true
  <-> normalize answer = normalize raw.
Proof.
  rewrite evaluate_spec. simpl. unfold Item_setLowercaseTrim, normalize.
  now rewrite toLowerCase_trim.
Qed.

(** ** Records and their items *)

Lemma truthy_nonempty s : JS.truthy s = true -> s <> "".
Proof. destruct s; [discriminate | intros _; discriminate]. Qed.

Lemma consistent_resubmitted its cr answer item :
  consistent its cr ->
  findById Item._id (ChatRequest.item cr) its = Some item ->
  consistent its (resubmitted cr answer item).
Proof.
  intros (it & s & Hi & Ho & Hr & Hq & Hq' & Ha & Ha' & _ & _ & _) Hi'.
  rewrite Hi in Hi'. injection Hi' as ->.
  exists item, (normalize answer). simpl.
  repeat split; auto using normalize_idem; apply evaluate_spec.
Qed.

Lemma consistent_handle db r :
  Forall (consistent (items db)) (chatRequests db) ->
  Forall (consistent (items db)) (chatRequests (fst (handle db r))).
Proof.
  intros H. pose proof H as HF. rewrite Forall_forall in H.
  destruct r as [u i a|u c|u c|u c m|u rc i m].
  - simpl.
    destruct (findById Item._id i (items db)) as [item|] eqn:Hi;
      [|unfold submitVerificationAnswer; rewrite Hi; exact HF].
    destruct (JS.truthy (Item.verificationQuestion item)) eqn:Hq;
      [|unfold submitVerificationAnswer; rewrite Hi, Hq; exact HF].
    destruct (Nat.eq_dec u (Item.user item)) as [Hu|Hu];
      [now rewrite (owner_submission_refused db u i a item Hi Hq Hu)|].
    rewrite (submit_guarded _ _ _ _ _ Hi Hq Hu).
    destruct (find _ (chatRequests db)) as [cr|] eqn:Hf.
    + cbv zeta. unfold fst. rewrite chatRequests_notifyOwner. simpl chatRequests.
      apply find_some in Hf as [Hin Hb]. apply byTriple_true in Hb as (Hci & _ & _).
      apply Forall_forall. intros x Hx. apply In_saveDoc in Hx as [->|Hx]; [|auto].
      apply (consistent_resubmitted (items db) cr a item (H cr Hin)).
      now rewrite Hci.
    + destruct (JS.truthy (ChatRequest.setLowercaseTrim _)) eqn:Ha; [|exact HF].
      cbv zeta. unfold fst. rewrite chatRequests_notifyOwner. simpl chatRequests.
      apply Forall_app. split; [exact HF|]. constructor; [|constructor].
      exists item, (normalize a). simpl.
      repeat split; auto using normalize_idem, truthy_nonempty; apply evaluate_spec.
  - simpl. unfold approveChatRequest.
    destruct (findById ChatRequest._id c (chatRequests db)) as [cr|] eqn:Hf;
      [|exact HF].
    apply findById_In in Hf as [Hin _].
    destruct (negb (ChatRequest.owner cr =? u)); [exact HF|].
    destruct (negb (ChatRequest.answerCorrect cr)); [exact HF|].
    destruct (find _ (conversations db)); simpl;
      (apply Forall_forall; intros x Hx; apply In_saveDoc in Hx as [->|Hx];
       [exact (H cr Hin) | auto]).
  - simpl. unfold declineChatRequest.
    destruct (findById ChatRequest._id c (chatRequests db)) as [cr|] eqn:Hf;
      [|exact HF].
    apply findById_In in Hf as [Hin _].
    destruct (negb (ChatRequest.owner cr =? u)); [exact HF|].
    simpl. apply Forall_forall. intros x Hx. apply In_saveDoc in Hx as [->|Hx];
      [exact (H cr Hin) | auto].
  - simpl. unfold sendMessage.
    destruct (findById Conversation._id c (conversations db)); [|exact HF].
    destruct (negb (includes _ u)); [exact HF|].
    destruct (negb (verificationGate _ _ _)); exact HF.
  - simpl. unfold createConversation.
    destruct (rc =? u); [exact HF|].
    destruct (find _ (conversations db)); destruct m as [m|];
      try destruct (JS.truthy m); exact HF.
Qed.

Lemma consistent_run rs : forall db,
  Forall (consistent (items db)) (chatRequests db) ->
  Forall (consistent (items db)) (chatRequests (run db rs)).
Proof.
  induction rs as [|r rs IH]; simpl; [trivial|].
  intros db H. pose proof (handle_frame db r) as [E _].
  rewrite <- E. apply IH. rewrite E. now apply consistent_handle.
Qed.

(** X2: after every sequence of requests on a ledger that starts empty,
    every record agrees with its item: its owner is the item's user and is
    not its requester, its question and answer snapshots are the item's
    and are not empty, it holds a submitted answer in normal form, and
    [answerCorrect] holds exactly when that answer is the item's. *)
Theorem records_consistent its n rs cr :
  In cr (chatRequests (run (freshDB its n) rs)) ->
  consistent its cr.
Proof.
  intros Hin.
  pose proof (consistent_run rs (freshDB its n) (Forall_nil _)) as H.
  rewrite Forall_forall in H. exact (H cr Hin).
Qed.

Lemma records_consistent_witness : consistent [item0] crApproved.
Proof.
  apply (records_consistent [item0] 100
           [SubmitAnswer requester0 10 "BLUE "; Approve owner0 100]).
  left. reflexivity.
Defined.

(** ** Records over time *)

Lemma snapshot_Update r cr cr' :
  Update r cr cr' ->
  ChatRequest.verificationQuestion cr' = ChatRequest.verificationQuestion cr
  /\ ChatRequest.correctAnswer cr' = ChatRequest.correctAnswer cr.
Proof. now destruct 1. Qed.

(** X3: a stored record is never deleted, and no sequence of requests
    changes its item, requester, owner or its two snapshots. *)
Theorem snapshots_immutable rs : forall db i cr,
  wfLedger db ->
  findById ChatRequest._id i (chatRequests db) = Some cr ->
  exists cr',
    findById ChatRequest._id i (chatRequests (run db rs)) = Some cr'
    /\ ChatRequest.item cr' = ChatRequest.item cr
    /\ ChatRequest.requester cr' = ChatRequest.requester cr
    /\ ChatRequest.owner cr' = ChatRequest.owner cr
    /\ ChatRequest.verificationQuestion cr' = ChatRequest.verificationQuestion cr
    /\ ChatRequest.correctAnswer cr' = ChatRequest.correctAnswer cr.
Proof.
  induction rs as [|r rs IH]; simpl; intros db i cr Hwf Hf.
  - exists cr. repeat split; auto.
  - destruct (handle_record db r i cr Hwf Hf) as (cr1 & Hf1 & H1).
    destruct (IH _ i cr1 (wfLedger_handle db r Hwf) Hf1)
      as (cr' & Hf' & Hi & Hr & Ho & Hq & Ha).
    exists cr'. split; [exact Hf'|].
    destruct H1 as [->|Hu]; [repeat split; auto|].
    destruct (Update_triple _ _ _ Hu) as (Ei & Er & Eo).
    destruct (snapshot_Update _ _ _ Hu) as (Eq & Ea).
    repeat split; congruence.
Qed.

Lemma snapshots_immutable_witness :
  exists cr',
    findById ChatRequest._id 100
      (chatRequests (run dbApproved [SubmitAnswer requester0 10 "green";
                                     Decline owner0 100])) = Some cr'
    /\ ChatRequest.item cr' = ChatRequest.item crApproved
    /\ ChatRequest.requester cr' = ChatRequest.requester crApproved
    /\ ChatRequest.owner cr' = ChatRequest.owner crApproved
    /\ ChatRequest.verificationQuestion cr'
       = ChatRequest.verificationQuestion crApproved
    /\ ChatRequest.correctAnswer cr' = ChatRequest.correctAnswer crApproved.
Proof.
  apply (snapshots_immutable [SubmitAnswer requester0 10 "green"; Decline owner0 100]
           dbApproved 100 crApproved).
  - apply wfLedger_run, wfLedger_fresh.
  - reflexivity.
Defined.

(** ** Approval is the owner's *)

(** X4: a record that is not approved stays so over every sequence of
    requests that contains no approval of it by its owner. *)
Theorem approved_only_by_owner rs : forall db i cr,
  wfLedger db ->
  findById ChatRequest._id i (chatRequests db) = Some cr ->
  ChatRequest.status cr <> approved ->
  ~ In (Approve (ChatRequest.owner cr) i) rs ->
  exists cr',
    findById ChatRequest._id i (chatRequests (run db rs)) = Some cr'
    /\ ChatRequest.status cr' <> approved.
Proof.
  induction rs as [|r rs IH]; simpl; intros db i cr Hwf Hf Hs Hn; [eauto|].
  destruct (handle_record db r i cr Hwf Hf) as (cr1 & Hf1 & H1).
  apply (IH _ i cr1 (wfLedger_handle db r Hwf) Hf1).
  - destruct H1 as [->|Hu]; [exact Hs|].
    destruct (status_Update _ _ _ Hu) as [E|[(_ & E & _)|[E _]]].
    + now rewrite E.
    + exfalso. apply Hn. left. apply findById_In in Hf as [_ <-]. now rewrite E.
    + rewrite E. discriminate.
  - destruct H1 as [->|Hu]; [tauto|].
    destruct (Update_triple _ _ _ Hu) as (_ & _ & ->). tauto.
Qed.

Lemma approved_only_by_owner_witness :
  let db := run db0 [SubmitAnswer requester0 10 "BLUE "] in
  exists cr',
    findById ChatRequest._id 100
      (chatRequests (run db [Approve requester0 100; Approve 3 100;
                             SubmitAnswer requester0 10 "blue"])) = Some cr'
    /\ ChatRequest.status cr' <> approved.
Proof.
  apply (approved_only_by_owner
           [Approve requester0 100; Approve 3 100; SubmitAnswer requester0 10 "blue"]
           (run db0 [SubmitAnswer requester0 10 "BLUE "]) 100
           (ChatRequest.mk 100 10 requester0 owner0 "What color?" "blue"
              (Some "blue") true pending None)).
  - apply wfLedger_run, wfLedger_fresh.
  - reflexivity.
  - discriminate.
  - simpl. intros [H|[H|[H|[]]]]; discriminate.
Defined.

Lemma unapproved_run it rs : forall db,
  Forall (consistent (items db)) (chatRequests db) ->
  findById Item._id (Item._id it) (items db) = Some it ->
  (forall c, ~ In (Approve (Item.user it) c) rs) ->
  (forall cr, In cr (chatRequests db) ->
              ChatRequest.item cr = Item._id it -> ChatRequest.status cr <> approved) ->
  forall cr, In cr (chatRequests (run db rs)) ->
             ChatRequest.item cr = Item._id it -> ChatRequest.status cr <> approved.
Proof.
  induction rs as [|r rs IH]; simpl; intros db Hc Hit Hn H; [exact H|].
  pose proof (handle_frame db r) as [Ei _].
  apply IH.
  - rewrite Ei. now apply consistent_handle.
  - now rewrite Ei.
  - intros c Hin. apply (Hn c). now right.
  - rewrite Forall_forall in Hc.
    destruct (handle_ledger db r)
      as [E|cr0 cr0' Hin Hu E|cr' item a E _ _ Hs _ _ _ _ _]; rewrite E.
    + exact H.
    + intros x Hx Hi. apply In_saveDoc in Hx as [->|Hx]; [|auto].
      destruct (Update_triple _ _ _ Hu) as (Ei' & _ & _). rewrite Ei' in Hi.
      destruct (status_Update _ _ _ Hu) as [E'|[(_ & E' & _)|[E' _]]].
      * rewrite E'. auto.
      * exfalso. apply (Hn (ChatRequest._id cr0)). left. rewrite E'. f_equal.
        destruct (Hc cr0 Hin) as (it' & s & Hi' & Ho & _).
        rewrite Hi, Hit in Hi'. injection Hi' as <-. exact Ho.
      * rewrite E'. discriminate.
    + intros x Hx Hi. apply in_app_or in Hx as [Hx|[<-|[]]]; [auto|].
      rewrite Hs. discriminate.
Qed.

(** X5: after a sequence of requests on a ledger that starts empty, in
    which the owner of an item with a verification question issued no
    approval, every message sent through [sendMessage] to a conversation
    on that item is refused with 403 and nothing is stored. *)
Theorem no_send_without_owner_approval its n rs it user conversationId content conv :
  let db := run (freshDB its n) rs in
  (forall c, ~ In (Approve (Item.user it) c) rs) ->
  findById Conversation._id conversationId (conversations db) = Some conv ->
  populateItem db conv = Some it ->
  JS.truthy (Item.verificationQuestion it) = true ->
  sendMessage db user conversationId content
  = (db, res 403 (JMessage (if includes (Conversation.participants conv) user
                            then notVerified else "Not authorized"))).
Proof.
  intros db Hn Hc Hp Hq.
  assert (Hgate : verificationGate db user (populateItem db conv) = false).
  { rewrite Hp. unfold verificationGate. rewrite Hq.
    destruct (find _ (chatRequests db)) as [cr|] eqn:Hf; [exfalso|reflexivity].
    assert (Hap : approvedFor db (Item._id it) user)
      by (apply gate_query_spec; eauto).
    destruct Hap as (y & Hin & Hi & _ & Hs). revert Hs.
    assert (Hit : findById Item._id (Item._id it) (items (freshDB its n)) = Some it).
    { pose proof (populateItem_id _ _ _ Hp) as H. unfold db in H.
      now rewrite items_run in H. }
    apply (unapproved_run it rs (freshDB its n) (Forall_nil _) Hit Hn
             (fun x (F : In x []) => match F with end) y Hin Hi). }
  unfold sendMessage. rewrite Hc, Hgate.
  destruct (includes (Conversation.participants conv) user); reflexivity.
Qed.

Lemma no_send_without_owner_approval_witness :
  let db := run db0 [SubmitAnswer requester0 10 "BLUE ";
                     CreateConversation requester0 owner0 (Some 10) None] in
  sendMessage db requester0 101 "hi"
  = (db, res 403 (JMessage (if includes [requester0; owner0] requester0
                            then notVerified else "Not authorized"))).
Proof.
  apply (no_send_without_owner_approval [item0] 100
           [SubmitAnswer requester0 10 "BLUE ";
            CreateConversation requester0 owner0 (Some 10) None]
           item0 requester0 101 "hi"
           (Conversation.mk 101 [requester0; owner0] (Some 10) None)).
  - intros c [H|[H|[]]]; discriminate.
  - reflexivity.
  - reflexivity.
  - reflexivity.
Defined.

(** ** Conversations *)

Lemma map_saveDoc_keep {Doc B} (docId : Doc -> ObjectId) (f : Doc -> B) d d0 c :
  findById docId (docId d) c = Some d0 -> f d = f d0 ->
  map f (saveDoc docId d c) = map f c.
Proof.
  unfold findById. intros H E. induction c as [|y c IH]; simpl in *; [reflexivity|].
  destruct (docId y =? docId d).
  - injection H as ->. simpl. now rewrite E.
  - simpl. now rewrite IH.
Qed.

Lemma conversations_postMessage db c u rcp m :
  conversations (fst (postMessage db c u rcp m))
  = saveDoc Conversation._id (Conversation.set_lastMessage (nextId db) c)
      (conversations db).
Proof. reflexivity. Qed.

Lemma byParticipantsItem_shape a b i c :
  byParticipantsItem a b i c = matchShape a b i (shape c).
Proof. reflexivity. Qed.

Lemma filter_map_length {A B} (f : A -> B) (p : B -> bool) l :
  List.length (filter (fun x => p (f x)) l) = List.length (filter p (map f l)).
Proof.
  induction l as [|x l IH]; simpl; [reflexivity|].
  destruct (p (f x)); simpl; now rewrite IH.
Qed.

Lemma shapes_touched db c m d0 :
  findById Conversation._id (Conversation._id c) (conversations db) = Some d0 ->
  shape c = shape d0 ->
  map shape (saveDoc Conversation._id (Conversation.set_lastMessage m c)
               (conversations db))
  = map shape (conversations db).
Proof.
  intros Hf E. apply (map_saveDoc_keep Conversation._id shape _ d0); assumption.
Qed.

Lemma findById_fresh db c :
  wfChannels db -> Conversation._id c = nextId db ->
  findById Conversation._id (nextId db) (conversations db ++ [c]) = Some c.
Proof.
  intros [_ Hlt] E. unfold findById. rewrite find_app_None.
  - simpl. now rewrite E, Nat.eqb_refl.
  - destruct (find _ (conversations db)) as [x|] eqn:Hx; [|reflexivity].
    apply find_some in Hx as [Hin Hid]. apply Nat.eqb_eq in Hid.
    rewrite Forall_forall in Hlt. specialize (Hlt x Hin). lia.
Qed.

Lemma handle_channels db r :
  wfChannels db ->
  Forall (consistent (items db)) (chatRequests db) ->
  ChannelStep db (fst (handle db r)).
Proof.
  intros Hwf Hc. pose proof Hwf as [ND _].
  destruct r as [u i a|u c|u c|u c m|u rc i m]; simpl.
  - apply ChannelsKept. f_equal. unfold submitVerificationAnswer.
    destruct (findById Item._id i (items db)) as [item|]; [|reflexivity].
    destruct (JS.truthy (Item.verificationQuestion item)); [|reflexivity].
    simpl negb. cbv iota. destruct (u =? Item.user item); [reflexivity|].
    destruct (find _ (chatRequests db)).
    + destruct (evaluate a item); reflexivity.
    + unfold ChatRequest_create.
      destruct (ChatRequest.failedPaths _); [|reflexivity].
      destruct (evaluate a item); reflexivity.
  - unfold approveChatRequest.
    destruct (findById ChatRequest._id c (chatRequests db)) as [cr|] eqn:Hf;
      [|now apply ChannelsKept].
    apply findById_In in Hf as [Hin _].
    destruct (negb (ChatRequest.owner cr =? u)); [now apply ChannelsKept|].
    destruct (negb (ChatRequest.answerCorrect cr)); [now apply ChannelsKept|].
    destruct (find _ (conversations db)) as [cv|] eqn:Hcv; simpl.
    + now apply ChannelsKept.
    + rewrite Forall_forall in Hc.
      destruct (Hc cr Hin) as (it & s & _ & _ & Hne & _).
      eapply ChannelOpened; [exact Hne | exact Hcv | | simpl; lia].
      simpl. now rewrite map_app.
  - apply ChannelsKept. f_equal. unfold declineChatRequest.
    destruct (findById ChatRequest._id c (chatRequests db)) as [cr|]; [|reflexivity].
    destruct (negb (ChatRequest.owner cr =? u)); reflexivity.
  - apply ChannelsKept. unfold sendMessage.
    destruct (findById Conversation._id c (conversations db)) as [cv|] eqn:Hcv;
      [|reflexivity].
    destruct (negb (includes _ u)); [reflexivity|].
    destruct (negb (verificationGate _ _ _)); [reflexivity|].
    change (map shape (conversations (fst (postMessage db cv u
              (find (fun p => negb (p =? u)) (Conversation.participants cv)) m)))
            = map shape (conversations db)).
    rewrite conversations_postMessage. apply (shapes_touched db cv _ cv); [|reflexivity].
    pose proof (findById_In _ _ _ _ Hcv) as [_ E]. now rewrite E.
  - unfold createConversation.
    destruct (rc =? u) eqn:Hu; [now apply ChannelsKept|].
    apply Nat.eqb_neq in Hu.
    destruct (find _ (conversations db)) as [cv|] eqn:Hcv.
    + apply ChannelsKept.
      destruct m as [m|]; [|reflexivity].
      destruct (JS.truthy m); [|reflexivity].
      change (map shape (conversations (fst (postMessage db cv u (Some rc) m)))
              = map shape (conversations db)).
      rewrite conversations_postMessage. apply (shapes_touched db cv _ cv); [|reflexivity].
      apply find_some in Hcv as [Hin _]. now apply NoDup_findById.
    + assert (Hne : u <> rc) by congruence.
      set (cv := Conversation.mk (nextId db) [u; rc] i None).
      assert (Hpost : forall m,
                 map shape (conversations
                   (fst (postMessage (fst (Conversation_create db [u; rc] i)) cv u
                           (Some rc) m)))
                 = map shape (conversations db) ++ [(nextId db, [u; rc], i)]).
      { intros m'. rewrite conversations_postMessage. simpl conversations.
        rewrite (map_saveDoc_keep Conversation._id shape _ cv).
        - now rewrite map_app.
        - apply (findById_fresh db cv Hwf eq_refl).
        - reflexivity. }
      destruct m as [m|]; [destruct (JS.truthy m)|].
      * eapply ChannelOpened; [exact Hne | exact Hcv | exact (Hpost m) | simpl; lia].
      * eapply ChannelOpened; [exact Hne | exact Hcv | | simpl; lia].
        simpl. now rewrite map_app.
      * eapply ChannelOpened; [exact Hne | exact Hcv | | simpl; lia].
        simpl. now rewrite map_app.
Qed.

Lemma refEqb_eq a b : refEqb a b = true -> a = b.
Proof.
  destruct a, b; simpl; try discriminate; [|reflexivity].
  intros H. apply Nat.eqb_eq in H. now subst.
Qed.

Lemma includes_pair a b x : includes [a; b] x = true -> x = a \/ x = b.
Proof.
  unfold includes. simpl. rewrite orb_false_r.
  intros H. apply orb_prop in H as [H|H]; apply Nat.eqb_eq in H; auto.
Qed.

Lemma matchShape_sym a b i s : matchShape a b i s = matchShape b a i s.
Proof. unfold matchShape. f_equal. apply andb_comm. Qed.

Lemma channelsOk_kept l n n' : n <= n' -> channelsOk l n -> channelsOk l n'.
Proof.
  intros Hn (H1 & H2 & H3 & H4). repeat split; auto.
  eapply Forall_impl; [|exact H2]. simpl. intros; lia.
Qed.

Lemma channelsOk_opened l n n' a b i :
  n < n' -> a <> b ->
  filter (matchShape a b i) l = [] ->
  channelsOk l n -> channelsOk (l ++ [(n, [a; b], i)]) n'.
Proof.
  intros Hn Hab Hnone (H1 & H2 & H3 & H4). repeat split.
  - rewrite map_app. simpl. apply NoDup_app; [exact H1 | repeat constructor; simpl; tauto|].
    intros x Hx [<-|[]]. rewrite in_map_iff in Hx. destruct Hx as (s & Hs & Hin).
    rewrite Forall_forall in H2. specialize (H2 s Hin). simpl in H2.
    apply (Nat.lt_irrefl n). rewrite <- Hs at 1. exact H2.
  - apply Forall_app. split.
    + eapply Forall_impl; [|exact H2]. simpl. intros; lia.
    + repeat constructor. simpl. lia.
  - apply Forall_app. split; [exact H3|]. repeat constructor. simpl. eauto.
  - intros x y j Hxy. rewrite filter_app, length_app. simpl.
    destruct (matchShape x y j (n, [a; b], i)) eqn:Hm; simpl;
      [|specialize (H4 x y j Hxy); lia].
    unfold matchShape in Hm. simpl in Hm.
    apply andb_prop in Hm as [Hm Hj]. apply andb_prop in Hm as [Hx Hy].
    apply refEqb_eq in Hj. subst j.
    apply includes_pair in Hx, Hy.
    assert (E : filter (matchShape x y i) l = []).
    { destruct Hx as [->| ->], Hy as [->| ->]; try (now elim Hxy); [exact Hnone|].
      rewrite (filter_ext _ (matchShape a b i)); [exact Hnone|].
      intros s. apply matchShape_sym. }
    rewrite E. simpl. lia.
Qed.

Lemma channelsOk_handle db r :
  Forall (consistent (items db)) (chatRequests db) ->
  wfChannels db ->
  channelsOk (map shape (conversations db)) (nextId db) ->
  channelsOk (map shape (conversations (fst (handle db r)))) (nextId (fst (handle db r))).
Proof.
  intros Hc Hwf Hok. pose proof (handle_frame db r) as [_ Hn].
  destruct (handle_channels db r Hwf Hc) as [E|a b i Hab Hf E Hlt]; rewrite E.
  - now apply (channelsOk_kept _ (nextId db)).
  - apply (channelsOk_opened _ (nextId db)); auto.
    apply find_None_filter in Hf.
    rewrite <- (map_id (filter _ _)) in Hf.
    clear - Hf. induction (conversations db) as [|c l IH]; simpl in *; [reflexivity|].
    rewrite <- byParticipantsItem_shape.
    destruct (byParticipantsItem a b i c); [discriminate | auto].
Qed.

Lemma channelsOk_wf db :
  channelsOk (map shape (conversations db)) (nextId db) -> wfChannels db.
Proof.
  intros (H1 & H2 & _). split.
  - rewrite map_map in H1. exact H1.
  - rewrite Forall_map in H2. exact H2.
Qed.

Lemma channels_run rs : forall db,
  Forall (consistent (items db)) (chatRequests db) ->
  channelsOk (map shape (conversations db)) (nextId db) ->
  channelsOk (map shape (conversations (run db rs))) (nextId (run db rs)).
Proof.
  induction rs as [|r rs IH]; simpl; [trivial|].
  intros db Hc Hok. pose proof (handle_frame db r) as [E _].
  apply IH.
  - rewrite E. now apply consistent_handle.
  - apply channelsOk_handle; auto. now apply channelsOk_wf.
Qed.

Lemma channelsOk_reachable its n rs :
  channelsOk (map shape (conversations (run (freshDB its n) rs)))
    (nextId (run (freshDB its n) rs)).
Proof.
  apply channels_run; [constructor|].
  repeat split; simpl; try constructor. intros; lia.
Qed.

(** X6: after every sequence of requests on a database that starts
    without records and conversations, the conversations have distinct
    identifiers, each has exactly two participants, who differ, and for
    two distinct users and an item reference at most one conversation
    matches the lookup by participants and item. *)
Theorem conversations_unique its n rs :
  let db := run (freshDB its n) rs in
  wfChannels db
  /\ Forall twoParty (conversations db)
  /\ uniqueChannels db.
Proof.
  intros db.
  pose proof (channelsOk_reachable its n rs) as H. fold db in H.
  split; [now apply channelsOk_wf|].
  destruct H as (_ & _ & H3 & H4). split.
  - rewrite Forall_map in H3. exact H3.
  - intros a b i Hab. unfold countConversations.
    rewrite (filter_ext _ (fun c => matchShape a b i (shape c)))
      by (intros c; apply byParticipantsItem_shape).
    rewrite filter_map_length. now apply H4.
Qed.

(** ** From the approval to the first message *)

Lemma byParticipantsItem_true a b i c :
  byParticipantsItem a b i c = true ->
  includes (Conversation.participants c) a = true
  /\ includes (Conversation.participants c) b = true
  /\ Conversation.item c = i.
Proof.
  unfold byParticipantsItem. intros H. apply andb_prop in H as [H Hi].
  apply andb_prop in H as [Ha Hb]. apply refEqb_eq in Hi. auto.
Qed.

(** X7: after every sequence of requests on a database that starts
    without records and conversations, the approval by the owner of a
    correctly answered record succeeds, and a message of the requester to
    the conversation it answers with is accepted. *)
Theorem approved_requester_can_send its n rs user chatRequestId cr content :
  let db := run (freshDB its n) rs in
  findById ChatRequest._id chatRequestId (chatRequests db) = Some cr ->
  ChatRequest.owner cr = user ->
  ChatRequest.answerCorrect cr = true ->
  exists db1 conv,
    approveChatRequest db user chatRequestId
      = (db1, res 200 (JApproved "Chat request approved" conv))
    /\ statusCode (snd (sendMessage db1 (ChatRequest.requester cr) conv content)) = 201.
Proof.
  intros db Hf Ho Ha.
  pose proof (channelsOk_wf _ (channelsOk_reachable its n rs)) as Hwf. fold db in Hwf.
  pose proof (findById_In _ _ _ _ Hf) as [Hin Hid].
  set (q := byParticipantsItem (ChatRequest.requester cr) (ChatRequest.owner cr)
              (Some (ChatRequest.item cr))).
  assert (Hgen : forall db1 cv,
            findById Conversation._id (Conversation._id cv) (conversations db1) = Some cv ->
            q cv = true -> items db1 = items db ->
            In (ChatRequest.set_conversation (Conversation._id cv)
                  (ChatRequest.set_status approved cr)) (chatRequests db1) ->
            statusCode (snd (sendMessage db1 (ChatRequest.requester cr)
                               (Conversation._id cv) content)) = 201).
  { intros db1 cv Hcv Hq Hit Hrec.
    apply byParticipantsItem_true in Hq as (Hp & _ & Hi).
    apply (sendMessage_participant db1 _ _ content cv Hcv Hp).
    apply verificationGate_spec. unfold gateOpen.
    destruct (populateItem db1 cv) as [it|] eqn:Hpop; [|exact I].
    right. eexists. split; [exact Hrec|]. simpl. repeat split.
    pose proof (populateItem_id _ _ _ Hpop) as Hx.
    unfold populateItem in Hpop. rewrite Hi in Hpop.
    apply findById_In in Hpop as [_ E]. now rewrite E. }
  unfold approveChatRequest. rewrite Hf, Ho, Nat.eqb_refl, Ha. simpl.
  rewrite <- Ho. fold q.
  destruct (find q (conversations db)) as [cv|] eqn:Hcv; simpl.
  - eexists _, _. split; [reflexivity|].
    apply find_some in Hcv as [Hcin Hq]. apply Hgen; auto.
    + simpl. destruct Hwf as [ND _]. now apply NoDup_findById.
    + simpl. eapply saveDoc_In; [exact Hin | reflexivity].
  - eexists _, _. split; [reflexivity|].
    apply (Hgen _ (Conversation.mk (nextId db)
                     [ChatRequest.requester cr; ChatRequest.owner cr]
                     (Some (ChatRequest.item cr)) None)).
    + simpl. now apply findById_fresh.
    + apply byParticipantsItem_pair.
    + reflexivity.
    + simpl. eapply saveDoc_In; [exact Hin | reflexivity].
Qed.

Lemma approved_requester_can_send_witness :
  let db := run db0 [SubmitAnswer requester0 10 "BLUE "] in
  exists db1 conv,
    approveChatRequest db owner0 100
      = (db1, res 200 (JApproved "Chat request approved" conv))
    /\ statusCode (snd (sendMessage db1 requester0 conv "hi")) = 201.
Proof.
  apply (approved_requester_can_send [item0] 100 [SubmitAnswer requester0 10 "BLUE "]
           owner0 100
           (ChatRequest.mk 100 10 requester0 owner0 "What color?" "blue"
              (Some "blue") true pending None) "hi");
    reflexivity.
Defined.

(** ** What [sendMessage] stores *)

(** X8: [sendMessage] either answers 201, and then the caller is a
    participant of the addressed conversation, exactly one message by the
    caller is appended for that conversation, the conversation's
    [lastMessage] is that message, the other participant is notified and
    the records are untouched; or it answers another status and stores
    nothing. *)
Theorem send_effect db user conversationId content :
  let db' := fst (sendMessage db user conversationId content) in
  let r := snd (sendMessage db user conversationId content) in
  (r = res 201 (JSent (nextId db) content user)
   /\ exists conv,
        findById Conversation._id conversationId (conversations db) = Some conv
        /\ includes (Conversation.participants conv) user = true
        /\ messages db' = messages db ++ [Message.mk (nextId db) conversationId user content]
        /\ findById Conversation._id conversationId (conversations db')
           = Some (Conversation.set_lastMessage (nextId db) conv)
        /\ chatRequests db' = chatRequests db
        /\ notifications db'
           = notifications db
             ++ [Notification.mk
                   (find (fun p => negb (p =? user)) (Conversation.participants conv))
                   n_message None (Some conversationId)])
  \/ (statusCode r <> 201 /\ db' = db).
Proof.
  unfold sendMessage.
  destruct (findById Conversation._id conversationId (conversations db))
    as [conv|] eqn:Hc; [|right; split; [discriminate | reflexivity]].
  destruct (includes (Conversation.participants conv) user) eqn:Hp;
    [|right; split; [discriminate | reflexivity]].
  destruct (verificationGate db user (populateItem db conv));
    [|right; split; [discriminate | reflexivity]].
  left. pose proof (findById_In _ _ _ _ Hc) as [_ Hid]. simpl.
  rewrite Hid. split; [reflexivity|].
  exists conv. split; [reflexivity|]. split; [exact Hp|]. split; [reflexivity|].
  split; [|split; reflexivity].
  apply (findById_resave Conversation._id conversationId conv); [exact Hc | reflexivity].
Qed.

(** ** [createConversation] *)

Lemma createConversation_found db user rcp i m cv :
  rcp <> user ->
  find (byParticipantsItem user rcp i) (conversations db) = Some cv ->
  createConversation db user rcp i m
  = match m with
    | Some content =>
        if JS.truthy content then
          (fst (postMessage db cv user (Some rcp) content),
           res 201 (JConversation (Conversation.set_lastMessage (nextId db) cv)))
        else (db, res 201 (JConversation cv))
    | None => (db, res 201 (JConversation cv))
    end.
Proof.
  intros Hu Hf. unfold createConversation.
  apply Nat.eqb_neq in Hu. rewrite Hu, Hf.
  destruct m as [content|]; [destruct (JS.truthy content)|]; reflexivity.
Qed.

Lemma createConversation_new db user rcp i m :
  rcp <> user ->
  find (byParticipantsItem user rcp i) (conversations db) = None ->
  let cv := Conversation.mk (nextId db) [user; rcp] i None in
  let db1 := fst (Conversation_create db [user; rcp] i) in
  createConversation db user rcp i m
  = match m with
    | Some content =>
        if JS.truthy content then
          (fst (postMessage db1 cv user (Some rcp) content),
           res 201 (JConversation (Conversation.set_lastMessage (S (nextId db)) cv)))
        else (db1, res 201 (JConversation cv))
    | None => (db1, res 201 (JConversation cv))
    end.
Proof.
  intros Hu Hf. unfold createConversation.
  apply Nat.eqb_neq in Hu. rewrite Hu, Hf.
  destruct m as [content|]; [destruct (JS.truthy content)|]; reflexivity.
Qed.

(** X9: [createConversation] with a first message stores that message
    without consulting the verification gate: on an item with a
    verification question, for a caller with no approved record, the
    message is appended, while a message of the same caller sent through
    [sendMessage] to the conversation just answered is refused. *)
Theorem first_message_skips_gate db user rcp i it content content2 :
  wfChannels db ->
  rcp <> user ->
  JS.truthy content = true ->
  findById Item._id i (items db) = Some it ->
  JS.truthy (Item.verificationQuestion it) = true ->
  ~ approvedFor db i user ->
  exists db' conv m,
    createConversation db user rcp (Some i) (Some content)
      = (db', res 201 (JConversation conv))
    /\ messages db' = messages db ++ [m]
    /\ Message.sender m = user
    /\ Message.content m = content
    /\ Message.conversation m = Conversation._id conv
    /\ sendMessage db' user (Conversation._id conv) content2
       = (db', res 403 (JMessage notVerified)).
Proof.
  intros Hwf Hu Hm Hi Hq Hna.
  assert (Hsend : forall db' cv,
            findById Conversation._id (Conversation._id cv) (conversations db') = Some cv ->
            includes (Conversation.participants cv) user = true ->
            Conversation.item cv = Some i ->
            items db' = items db -> chatRequests db' = chatRequests db ->
            sendMessage db' user (Conversation._id cv) content2
            = (db', res 403 (JMessage notVerified))).
  { intros db' cv Hcv Hp Hci Hit Hcr.
    apply (sendMessage_participant db' user _ content2 cv Hcv Hp).
    destruct (verificationGate db' user (populateItem db' cv)) eqn:Hg; [|reflexivity].
    exfalso. apply verificationGate_spec in Hg. unfold gateOpen, populateItem in Hg.
    rewrite Hci, Hit, Hi, Hq in Hg. destruct Hg as [Hg|Hg]; [discriminate|].
    apply Hna. pose proof (findById_In _ _ _ _ Hi) as [_ E]. rewrite E in Hg.
    unfold approvedFor in *. now rewrite Hcr in Hg. }
  destruct (find (byParticipantsItem user rcp (Some i)) (conversations db))
    as [cv|] eqn:Hf.
  - rewrite (createConversation_found _ _ _ _ _ cv Hu Hf), Hm.
    pose proof (find_some _ _ Hf) as [Hin Hb].
    apply byParticipantsItem_true in Hb as (Hp & _ & Hci).
    eexists _, _, _. split; [reflexivity|]. split; [reflexivity|].
    repeat split.
    apply (Hsend _ (Conversation.set_lastMessage (nextId db) cv)); auto.
    simpl. destruct Hwf as [ND _].
    apply (findById_resave Conversation._id _ cv); [|reflexivity].
    now apply NoDup_findById.
  - rewrite (createConversation_new _ _ _ _ _ Hu Hf), Hm.
    eexists _, _, _. split; [reflexivity|]. split; [reflexivity|].
    repeat split.
    apply (Hsend _ (Conversation.set_lastMessage (S (nextId db))
                      (Conversation.mk (nextId db) [user; rcp] (Some i) None))); auto.
    + simpl.
      apply (findById_resave Conversation._id _
               (Conversation.mk (nextId db) [user; rcp] (Some i) None));
        [|reflexivity].
      now apply findById_fresh.
    + unfold includes. simpl. now rewrite Nat.eqb_refl.
Qed.

Lemma first_message_skips_gate_witness :
  exists db' conv m,
    createConversation db0 3 owner0 (Some 10) (Some "is it yours?")
      = (db', res 201 (JConversation conv))
    /\ messages db' = messages db0 ++ [m]
    /\ Message.sender m = 3
    /\ Message.content m = "is it yours?"
    /\ Message.conversation m = Conversation._id conv
    /\ sendMessage db' 3 (Conversation._id conv) "hello"
       = (db', res 403 (JMessage notVerified)).
Proof.
  apply (first_message_skips_gate db0 3 owner0 10 item0 "is it yours?" "hello").
  - split; constructor.
  - discriminate.
  - reflexivity.
  - reflexivity.
  - reflexivity.
  - intros (cr & [] & _).
Defined.

Lemma find_agree {A} (f g : A -> bool) l :
  (forall x, In x l -> f x = g x) -> find f l = find g l.
Proof.
  induction l as [|y l IH]; simpl; intros H; [reflexivity|].
  rewrite (H y) by now left. destruct (g y); [reflexivity|].
  apply IH. intros x Hx. apply H. now right.
Qed.

Lemma byParticipantsItem_sym a b i c :
  byParticipantsItem a b i c = byParticipantsItem b a i c.
Proof. unfold byParticipantsItem. f_equal. apply andb_comm. Qed.

(** X10: for two distinct users, [createConversation] without a first
    message answers with one and the same conversation when it is called
    again, by either of the two users with the other as recipient; the
    calls after the first store nothing, and the first one stores at most
    one conversation. *)
Theorem conversation_reused db a b i :
  a <> b ->
  exists db1 conv,
    createConversation db a b i None = (db1, res 201 (JConversation conv))
    /\ createConversation db1 a b i None = (db1, res 201 (JConversation conv))
    /\ createConversation db1 b a i None = (db1, res 201 (JConversation conv))
    /\ List.length (conversations db1) <= S (List.length (conversations db)).
Proof.
  intros Hab. assert (Hba : b <> a) by congruence.
  destruct (find (byParticipantsItem a b i) (conversations db)) as [cv|] eqn:Hf.
  - exists db, cv.
    assert (Hf' : find (byParticipantsItem b a i) (conversations db) = Some cv).
    { rewrite <- Hf. apply find_agree. intros; apply byParticipantsItem_sym. }
    rewrite (createConversation_found db a b i None cv Hba Hf).
    rewrite (createConversation_found db b a i None cv Hab Hf').
    repeat split. lia.
  - set (cv := Conversation.mk (nextId db) [a; b] i None).
    set (db1 := fst (Conversation_create db [a; b] i)).
    assert (Hq : byParticipantsItem a b i cv = true).
    { unfold byParticipantsItem, includes. simpl. rewrite !Nat.eqb_refl. simpl.
      rewrite orb_true_r. simpl. destruct i; simpl; [apply Nat.eqb_refl | reflexivity]. }
    assert (Hf1 : find (byParticipantsItem a b i) (conversations db1) = Some cv).
    { change (conversations db1) with (conversations db ++ [cv]).
      rewrite (find_app_None _ _ _ Hf). cbn [find]. now rewrite Hq. }
    assert (Hf2 : find (byParticipantsItem b a i) (conversations db1) = Some cv).
    { rewrite <- Hf1. apply find_agree. intros; apply byParticipantsItem_sym. }
    exists db1, cv.
    rewrite (createConversation_new db a b i None Hba Hf).
    rewrite (createConversation_found db1 a b i None cv Hba Hf1).
    rewrite (createConversation_found db1 b a i None cv Hab Hf2).
    repeat split. simpl. rewrite length_app. simpl. lia.
Qed.

Lemma conversation_reused_witness :
  exists db1 conv,
    createConversation dbApproved owner0 requester0 (Some 10) None
      = (db1, res 201 (JConversation conv))
    /\ createConversation db1 owner0 requester0 (Some 10) None
       = (db1, res 201 (JConversation conv))
    /\ createConversation db1 requester0 owner0 (Some 10) None
       = (db1, res 201 (JConversation conv))
    /\ List.length (conversations db1) <= S (List.length (conversations dbApproved)).
Proof.
  apply (conversation_reused dbApproved owner0 requester0 (Some 10)). discriminate.
Defined.

(** ** [getChatRequestStatus] *)

Lemma consistent_reachable its n rs :
  Forall (consistent (items (run (freshDB its n) rs)))
    (chatRequests (run (freshDB its n) rs)).
Proof. rewrite items_run. apply (consistent_run rs (freshDB its n)). constructor. Qed.

Lemma byItemRequester_byTriple its item i u cr :
  findById Item._id i its = Some item ->
  consistent its cr ->
  byItemRequester i u cr = byTriple i u (Item.user item) cr.
Proof.
  intros Hi (it & s & Hci & Ho & _). unfold byTriple, byItemRequester.
  destruct (ChatRequest.item cr =? i) eqn:E; [|reflexivity].
  apply Nat.eqb_eq in E. rewrite E, Hi in Hci. injection Hci as <-.
  rewrite Ho, Nat.eqb_refl. now rewrite andb_true_r.
Qed.

Lemma statusQuery_byTriple db i u item :
  Forall (consistent (items db)) (chatRequests db) ->
  findById Item._id i (items db) = Some item ->
  find (byItemRequester i u) (chatRequests db)
  = find (byTriple i u (Item.user item)) (chatRequests db).
Proof.
  intros Hc Hi. apply find_agree. intros x Hx. rewrite Forall_forall in Hc.
  apply (byItemRequester_byTriple (items db)); auto.
Qed.

(** X11: after every sequence of requests on a ledger that starts empty,
    a successful submission is reflected by the status query of the same
    user on the same item: a request exists, is answered, carries the
    result of this submission, and has the status it had before, or
    pending if there was no request. *)
Theorem status_after_submit its n rs user itemId answer success msg id :
  let db := run (freshDB its n) rs in
  snd (submitVerificationAnswer db user itemId answer)
    = res 200 (JAnswer success msg id) ->
  getChatRequestStatus (fst (submitVerificationAnswer db user itemId answer))
    user itemId
  = StatusView.mk true true (Some success)
      (Some (match StatusView.status (getChatRequestStatus db user itemId) with
             | Some s => s
             | None => pending
             end)).
Proof.
  intros db Hr.
  assert (Hok : statusCode (snd (submitVerificationAnswer db user itemId answer)) = 200)
    by now rewrite Hr.
  destruct (submit_ok_guards _ _ _ _ Hok) as (item & Hi & Hq & Hu).
  assert (Hwf : wfLedger db) by apply wfLedger_run, wfLedger_fresh.
  assert (Hc : Forall (consistent (items db)) (chatRequests db))
    by apply consistent_reachable.
  pose proof (consistent_handle db (SubmitAnswer user itemId answer) Hc) as Hc'.
  pose proof (handle_frame db (SubmitAnswer user itemId answer)) as [Eit _].
  simpl in Hc', Eit. rewrite <- Eit in Hc'.
  assert (Hi' : findById Item._id itemId
                  (items (fst (submitVerificationAnswer db user itemId answer)))
                = Some item) by now rewrite Eit.
  unfold getChatRequestStatus.
  rewrite (statusQuery_byTriple _ itemId user item Hc' Hi').
  rewrite (statusQuery_byTriple _ itemId user item Hc Hi).
  destruct (find (byTriple itemId user (Item.user item)) (chatRequests db))
    as [cr|] eqn:Hf.
  - destruct (resubmit_frame db user itemId answer item cr Hwf Hi Hq Hu Hf)
      as (l1 & l2 & _ & Hn & E).
    rewrite E, (find_app_None _ _ _ Hn). cbn [find].
    rewrite byTriple_resubmitted.
    destruct (find_split _ _ _ Hf) as (_ & _ & _ & _ & ->). simpl.
    rewrite (submit_guarded _ _ _ _ _ Hi Hq Hu), Hf in Hr. simpl in Hr.
    now injection Hr as <- _ _.
  - rewrite (submit_guarded _ _ _ _ _ Hi Hq Hu), Hf in Hr |- *.
    destruct (JS.truthy (ChatRequest.setLowercaseTrim _)); [|discriminate].
    cbv zeta in Hr |- *. unfold fst. rewrite chatRequests_notifyOwner.
    simpl chatRequests. rewrite (find_app_None _ _ _ Hf). cbn [find].
    unfold byTriple. simpl. rewrite !Nat.eqb_refl. simpl.
    simpl in Hr. now injection Hr as <- _ _.
Qed.

Lemma status_after_submit_witness :
  getChatRequestStatus (fst (submitVerificationAnswer dbApproved requester0 10 "green"))
    requester0 10
  = StatusView.mk true true (Some false)
      (Some (match StatusView.status (getChatRequestStatus dbApproved requester0 10) with
             | Some s => s
             | None => pending
             end)).
Proof.
  apply (status_after_submit [item0] 100
           [SubmitAnswer requester0 10 "BLUE "; Approve owner0 100]
           requester0 10 "green" false "Incorrect answer. Please try again." 100).
  reflexivity.
Defined.

(** X12: after every sequence of requests on a ledger that starts empty,
    the status query reports a request as answered whenever it reports
    that one exists, and it reports that one exists exactly when some
    record has the item and the caller as requester. *)
Theorem status_query_shape its n rs user itemId :
  let v := getChatRequestStatus (run (freshDB its n) rs) user itemId in
  StatusView.answered v = StatusView.hasRequest v
  /\ (StatusView.hasRequest v = true <->
      exists cr,
        In cr (chatRequests (run (freshDB its n) rs))
        /\ ChatRequest.item cr = itemId /\ ChatRequest.requester cr = user).
Proof.
  set (db := run (freshDB its n) rs). unfold getChatRequestStatus.
  assert (Hc : Forall (consistent (items db)) (chatRequests db))
    by apply consistent_reachable.
  rewrite Forall_forall in Hc.
  destruct (find (byItemRequester itemId user) (chatRequests db)) as [cr|] eqn:Hf;
    simpl.
  - apply find_some in Hf as [Hin Hb].
    destruct (Hc cr Hin) as (it & s & _ & _ & _ & _ & _ & _ & _ & Hs & _).
    rewrite Hs. split; [reflexivity|]. split; [intros _|reflexivity].
    unfold byItemRequester in Hb. apply andb_prop in Hb as [Hi Hr].
    rewrite Nat.eqb_eq in Hi, Hr. eauto.
  - split; [reflexivity|]. split; [discriminate|].
    intros (cr & Hin & Hi & Hr).
    pose proof (find_none _ _ Hf cr Hin) as Hb.
    unfold byItemRequester in Hb. now rewrite Hi, Hr, !Nat.eqb_refl in Hb.
Qed.

(** ** [getIncomingChatRequests] *)

Lemma mapOrThrow_Some {A B} (f : A -> option B) l ys :
  mapOrThrow f l = Some ys -> Forall2 (fun x y => f x = Some y) l ys.
Proof.
  revert ys. induction l as [|x l IH]; simpl; intros ys H.
  - injection H as <-. constructor.
  - destruct (f x) as [y|] eqn:E; [|discriminate].
    destruct (mapOrThrow f l) as [ys'|]; [|discriminate].
    injection H as <-. constructor; auto.
Qed.

Lemma mapOrThrow_total {A B} (f : A -> option B) l :
  (forall x, In x l -> f x <> None) -> exists ys, mapOrThrow f l = Some ys.
Proof.
  induction l as [|x l IH]; simpl; intros H; [eauto|].
  destruct (f x) as [y|] eqn:E; [|now elim (H x (or_introl eq_refl))].
  destruct IH as [ys ->]; [intros z Hz; apply H; now right|]. eauto.
Qed.

Lemma Forall2_In_left {A B} (R : A -> B -> Prop) l ys x :
  Forall2 R l ys -> In x l -> exists y, In y ys /\ R x y.
Proof.
  induction 1 as [|a b l ys Hab _ IH]; simpl; [contradiction|].
  intros [->|Hx]; [eauto|]. destruct (IH Hx) as (y & Hy & Hr). eauto.
Qed.

Lemma Forall2_In_right {A B} (R : A -> B -> Prop) l ys y :
  Forall2 R l ys -> In y ys -> exists x, In x l /\ R x y.
Proof.
  induction 1 as [|a b l ys Hab _ IH]; simpl; [contradiction|].
  intros [->|Hy]; [eauto|]. destruct (IH Hy) as (x & Hx & Hr). eauto.
Qed.

Lemma Forall2_length_eq {A B} (R : A -> B -> Prop) l ys :
  Forall2 R l ys -> List.length l = List.length ys.
Proof. induction 1; simpl; congruence. Qed.

Lemma byOwnerCorrect_true o cr :
  byOwnerCorrect o cr = true <->
  ChatRequest.owner cr = o /\ ChatRequest.answerCorrect cr = true.
Proof.
  unfold byOwnerCorrect. rewrite andb_true_iff, Nat.eqb_eq. tauto.
Qed.

Section IncomingFacts.

Variable users : list User.t.
Variable title : Item.t -> string.
Variable type : Item.t -> ItemType.

Lemma formatIncoming_Some db cr v :
  formatIncoming users title type db cr = Some v ->
  IncomingView.id v = ChatRequest._id cr
  /\ IncomingView.requesterId v = ChatRequest.requester cr
  /\ IncomingView.status v = ChatRequest.status cr
  /\ IncomingView.submittedAnswer v = ChatRequest.submittedAnswer cr.
Proof.
  unfold formatIncoming.
  destruct (findById User._id _ users) as [u|] eqn:Hu; [|discriminate].
  destruct (findById Item._id _ (items db)); [|discriminate].
  intros [= <-]. simpl. apply findById_In in Hu as [_ Hu]. auto.
Qed.

Lemma incoming_listing db user l :
  getIncomingChatRequests users title type db user = Some l ->
  Forall2 (fun cr v => formatIncoming users title type db cr = Some v)
    (rev (filter (byOwnerCorrect user) (chatRequests db))) l.
Proof. apply mapOrThrow_Some. Qed.

Lemma incoming_lists_members db user l :
  getIncomingChatRequests users title type db user = Some l ->
  (forall v, In v l ->
     exists cr,
       In cr (chatRequests db)
       /\ ChatRequest.owner cr = user /\ ChatRequest.answerCorrect cr = true
       /\ IncomingView.id v = ChatRequest._id cr)
  /\ (forall cr,
        In cr (chatRequests db) ->
        ChatRequest.owner cr = user -> ChatRequest.answerCorrect cr = true ->
        exists v, In v l /\ IncomingView.id v = ChatRequest._id cr).
Proof.
  intros H. apply incoming_listing in H. split.
  - intros v Hv. destruct (Forall2_In_right _ _ _ v H Hv) as (cr & Hin & Hf).
    apply in_rev, filter_In in Hin as [Hin Hb].
    apply byOwnerCorrect_true in Hb as [Ho Ha].
    apply formatIncoming_Some in Hf as (H1 & _). eauto.
  - intros cr Hin Ho Ha.
    assert (Hin' : In cr (rev (filter (byOwnerCorrect user) (chatRequests db)))).
    { apply in_rev. rewrite rev_involutive. apply filter_In. split; [exact Hin|].
      now apply byOwnerCorrect_true. }
    destruct (Forall2_In_left _ _ _ cr H Hin') as (v & Hv & Hf).
    apply formatIncoming_Some in Hf as (H1 & _). eauto.
Qed.

(** X13: when [getIncomingChatRequests] answers, its list holds one entry
    for each stored record whose owner is the caller and whose answer is
    correct, whatever the status of the record, and nothing else; an entry
    carries the identifier, requester, status and submitted answer of its
    record. *)
Theorem incoming_lists_correct_answers db user l :
  getIncomingChatRequests users title type db user = Some l ->
  (forall v, In v l ->
     exists cr,
       In cr (chatRequests db)
       /\ ChatRequest.owner cr = user /\ ChatRequest.answerCorrect cr = true
       /\ IncomingView.id v = ChatRequest._id cr
       /\ IncomingView.requesterId v = ChatRequest.requester cr
       /\ IncomingView.status v = ChatRequest.status cr
       /\ IncomingView.submittedAnswer v = ChatRequest.submittedAnswer cr)
  /\ (forall cr,
        In cr (chatRequests db) ->
        ChatRequest.owner cr = user -> ChatRequest.answerCorrect cr = true ->
        exists v,
          In v l /\ IncomingView.id v = ChatRequest._id cr
          /\ IncomingView.status v = ChatRequest.status cr)
  /\ List.length l = List.length (filter (byOwnerCorrect user) (chatRequests db)).
Proof.
  intros H. apply incoming_listing in H. repeat split.
  - intros v Hv. destruct (Forall2_In_right _ _ _ v H Hv) as (cr & Hin & Hf).
    apply in_rev, filter_In in Hin as [Hin Hb].
    apply byOwnerCorrect_true in Hb as [Ho Ha].
    apply formatIncoming_Some in Hf as (H1 & H2 & H3 & H4).
    exists cr. repeat split; assumption.
  - intros cr Hin Ho Ha.
    assert (Hin' : In cr (rev (filter (byOwnerCorrect user) (chatRequests db)))).
    { apply in_rev. rewrite rev_involutive. apply filter_In. split; [exact Hin|].
      now apply byOwnerCorrect_true. }
    destruct (Forall2_In_left _ _ _ cr H Hin') as (v & Hv & Hf).
    apply formatIncoming_Some in Hf as (H1 & _ & H3 & _). eauto.
  - rewrite <- (Forall2_length_eq _ _ _ H). apply length_rev.
Qed.

End IncomingFacts.

Lemma incoming_lists_correct_answers_witness :
  let l := [IncomingView.mk 100 "Ravi" "ravi@example.org" requester0 "Notebook" found
              (Some "blue") approved] in
  (forall v, In v l ->
     exists cr,
       In cr (chatRequests dbApproved)
       /\ ChatRequest.owner cr = owner0 /\ ChatRequest.answerCorrect cr = true
       /\ IncomingView.id v = ChatRequest._id cr
       /\ IncomingView.requesterId v = ChatRequest.requester cr
       /\ IncomingView.status v = ChatRequest.status cr
       /\ IncomingView.submittedAnswer v = ChatRequest.submittedAnswer cr)
  /\ (forall cr,
        In cr (chatRequests dbApproved) ->
        ChatRequest.owner cr = owner0 -> ChatRequest.answerCorrect cr = true ->
        exists v,
          In v l /\ IncomingView.id v = ChatRequest._id cr
          /\ IncomingView.status v = ChatRequest.status cr)
  /\ List.length l
     = List.length (filter (byOwnerCorrect owner0) (chatRequests dbApproved)).
Proof.
  apply (incoming_lists_correct_answers users0 title0 type0 dbApproved owner0).
  reflexivity.
Defined.

Section IncomingRuns.

Variable users : list User.t.
Variable title : Item.t -> string.
Variable type : Item.t -> ItemType.

(** X14: after every sequence of requests on a ledger that starts empty,
    [getIncomingChatRequests] answers with a list (and not with the error
    of the [catch]) as soon as the requesters of the caller's correctly
    answered records are stored users. *)
Theorem incoming_answers its n rs user :
  let db := run (freshDB its n) rs in
  (forall cr, In cr (chatRequests db) ->
              ChatRequest.owner cr = user -> ChatRequest.answerCorrect cr = true ->
              exists u, findById User._id (ChatRequest.requester cr) users = Some u) ->
  exists l, getIncomingChatRequests users title type db user = Some l.
Proof.
  intros db Hu. apply mapOrThrow_total. intros cr Hin.
  apply in_rev, filter_In in Hin as [Hin Hb].
  apply byOwnerCorrect_true in Hb as [Ho Ha].
  destruct (Hu cr Hin Ho Ha) as [u Hfu].
  pose proof (consistent_reachable its n rs) as Hc. fold db in Hc.
  rewrite Forall_forall in Hc. destruct (Hc cr Hin) as (it & s & Hi & _).
  unfold formatIncoming. rewrite Hfu, Hi. discriminate.
Qed.

End IncomingRuns.

Lemma incoming_answers_witness :
  exists l, getIncomingChatRequests users0 title0 type0 dbApproved owner0 = Some l.
Proof.
  apply (incoming_answers users0 title0 type0 [item0] 100
           [SubmitAnswer requester0 10 "BLUE "; Approve owner0 100] owner0).
  intros cr [<-|[]] _ _. eexists. reflexivity.
Defined.

Lemma filter_same_key {A K} (k : A -> K) (p : A -> bool) :
  (forall x y, k x = k y -> p x = p y) ->
  forall l1 l2, map k l1 = map k l2 -> map k (filter p l1) = map k (filter p l2).
Proof.
  intros Hp. induction l1 as [|x l1 IH]; intros [|y l2] H; simpl in *;
    try discriminate; [reflexivity|].
  injection H as Hk Hl. rewrite (Hp x y Hk).
  destruct (p y); simpl; [rewrite Hk; f_equal|]; auto.
Qed.

Lemma mapOrThrow_same_key {A B C K} (k : A -> K) (proj : B -> C)
    (f g : A -> option B) :
  (forall x y, k x = k y -> option_map proj (f x) = option_map proj (g y)) ->
  forall l1 l2, map k l1 = map k l2 ->
  option_map (map proj) (mapOrThrow f l1) = option_map (map proj) (mapOrThrow g l2).
Proof.
  intros Hf. induction l1 as [|x l1 IH]; intros [|y l2] H; simpl in *;
    try discriminate; [reflexivity|].
  injection H as Hk Hl. specialize (Hf x y Hk). specialize (IH l2 Hl).
  destruct (f x), (g y); simpl in Hf; try discriminate; [|reflexivity].
  injection Hf as Hf.
  destruct (mapOrThrow f l1), (mapOrThrow g l2); simpl in *; try discriminate;
    [|reflexivity].
  injection IH as IH. now rewrite Hf, IH.
Qed.

Section IncomingDecisions.

Variable users : list User.t.
Variable title : Item.t -> string.
Variable type : Item.t -> ItemType.

Lemma incoming_same_keys db db' user :
  items db' = items db ->
  map listingKey (chatRequests db') = map listingKey (chatRequests db) ->
  option_map (map IncomingView.id) (getIncomingChatRequests users title type db' user)
  = option_map (map IncomingView.id) (getIncomingChatRequests users title type db user).
Proof.
  intros Hit Hk. unfold getIncomingChatRequests.
  apply (mapOrThrow_same_key listingKey).
  - intros x y E. unfold formatIncoming, listingKey in *. injection E as E1 E2 E3 _ _ _.
    rewrite Hit, E2, E3.
    destruct (findById User._id _ users); [|reflexivity].
    destruct (findById Item._id _ (items db)); [|reflexivity].
    simpl. now rewrite E1.
  - rewrite !map_rev. f_equal. apply filter_same_key; [|exact Hk].
    intros x y E. unfold byOwnerCorrect, listingKey in *.
    injection E as _ _ _ E4 E5 _. now rewrite E4, E5.
Qed.

(** X15: an approval or a decline, by whomever and of whichever record,
    changes neither which records [getIncomingChatRequests] lists for a
    user nor their order: a decided request stays in the owner's list. *)
Theorem decisions_keep_listing db user u c :
  option_map (map IncomingView.id)
    (getIncomingChatRequests users title type (fst (approveChatRequest db u c)) user)
  = option_map (map IncomingView.id) (getIncomingChatRequests users title type db user)
  /\ option_map (map IncomingView.id)
       (getIncomingChatRequests users title type (fst (declineChatRequest db u c)) user)
     = option_map (map IncomingView.id) (getIncomingChatRequests users title type db user).
Proof.
  split; apply incoming_same_keys.
  - apply (handle_frame db (Approve u c)).
  - unfold approveChatRequest.
    destruct (findById ChatRequest._id c (chatRequests db)) as [cr|] eqn:Hf;
      [|reflexivity].
    destruct (negb (ChatRequest.owner cr =? u)); [reflexivity|].
    destruct (negb (ChatRequest.answerCorrect cr)); [reflexivity|].
    pose proof (findById_In _ _ _ _ Hf) as [_ Hid].
    destruct (find _ (conversations db)); simpl;
      apply (map_saveDoc_keep ChatRequest._id listingKey _ cr);
      simpl; try reflexivity; now rewrite Hid.
  - apply (handle_frame db (Decline u c)).
  - unfold declineChatRequest.
    destruct (findById ChatRequest._id c (chatRequests db)) as [cr|] eqn:Hf;
      [|reflexivity].
    destruct (negb (ChatRequest.owner cr =? u)); [reflexivity|].
    pose proof (findById_In _ _ _ _ Hf) as [_ Hid]. simpl.
    apply (map_saveDoc_keep ChatRequest._id listingKey _ cr);
      simpl; try reflexivity; now rewrite Hid.
Qed.

Lemma submitted_record db user itemId answer db' success msg id :
  submitVerificationAnswer db user itemId answer
    = (db', res 200 (JAnswer success msg id)) ->
  exists item cr,
    findById Item._id itemId (items db) = Some item
    /\ In cr (chatRequests db') /\ ChatRequest._id cr = id
    /\ ChatRequest.owner cr = Item.user item
    /\ ChatRequest.answerCorrect cr = success.
Proof.
  intros H.
  assert (Hok : statusCode (snd (submitVerificationAnswer db user itemId answer)) = 200)
    by now rewrite H.
  destruct (submit_ok_guards _ _ _ _ Hok) as (item & Hi & Hq & Hu).
  rewrite (submit_guarded _ _ _ _ _ Hi Hq Hu) in H.
  destruct (find _ (chatRequests db)) as [cr|] eqn:Hf.
  - cbv zeta in H. injection H as <- <- _ <-.
    apply find_some in Hf as [Hin Hb]. apply byTriple_true in Hb as (_ & _ & Ho).
    eexists item, _. rewrite chatRequests_notifyOwner. simpl.
    split; [exact Hi|].
    split; [eapply saveDoc_In; [exact Hin | reflexivity]|].
    repeat split. exact Ho.
  - destruct (JS.truthy (ChatRequest.setLowercaseTrim _)); [|discriminate].
    cbv zeta in H. injection H as <- <- _ <-.
    eexists item, _. rewrite chatRequests_notifyOwner. simpl.
    split; [exact Hi|].
    split; [apply in_or_app; right; left; reflexivity|].
    repeat split.
Qed.

(** X16: after a successful submission on a ledger with distinct record
    identifiers, the next listing of the item's owner contains the request
    exactly when the submitted answer was correct; a wrong answer takes a
    request off the list, an approved one too. *)
Theorem listing_follows_answer db user itemId answer db' success msg id item l :
  wfLedger db ->
  findById Item._id itemId (items db) = Some item ->
  submitVerificationAnswer db user itemId answer
    = (db', res 200 (JAnswer success msg id)) ->
  getIncomingChatRequests users title type db' (Item.user item) = Some l ->
  (In id (map IncomingView.id l) <-> success = true).
Proof.
  intros Hwf Hi H Hl.
  destruct (submitted_record _ _ _ _ _ _ _ _ H) as (item' & cr & Hi' & Hin & Hid & Ho & Ha).
  rewrite Hi in Hi'. injection Hi' as <-.
  pose proof (wfLedger_handle db (SubmitAnswer user itemId answer) Hwf) as [ND _].
  simpl in ND. rewrite H in ND. simpl in ND.
  destruct (incoming_lists_members users title type db' (Item.user item) l Hl) as [H1 H2].
  split.
  - intros Hv. apply in_map_iff in Hv as (v & Hv & Hvin).
    destruct (H1 v Hvin) as (cr1 & Hin1 & _ & Ha1 & Hid1).
    assert (E : cr1 = cr).
    { pose proof (NoDup_findById ChatRequest._id _ _ ND Hin1) as F1.
      pose proof (NoDup_findById ChatRequest._id _ _ ND Hin) as F2.
      rewrite <- Hid1, Hv, <- Hid, F2 in F1. now injection F1. }
    subst cr1. now rewrite <- Ha.
  - intros ->. destruct (H2 cr Hin Ho Ha) as (v & Hvin & Hv).
    apply in_map_iff. exists v. split; [congruence | exact Hvin].
Qed.

End IncomingDecisions.

Lemma listing_follows_answer_witness :
  In 100 (map IncomingView.id []) <-> false = true.
Proof.
  apply (listing_follows_answer users0 title0 type0 dbApproved requester0 10 "green"
           (fst (submitVerificationAnswer dbApproved requester0 10 "green"))
           false "Incorrect answer. Please try again." 100 item0 []).
  - apply wfLedger_run, wfLedger_fresh.
  - reflexivity.
  - reflexivity.
  - reflexivity.
Defined.

(** ** The status query and the gate *)

Lemma filter_at_most_one {A} (p : A -> bool) l x y :
  List.length (filter p l) <= 1 ->
  In x l -> In y l -> p x = true -> p y = true -> x = y.
Proof.
  intros Hl Hx Hy Hpx Hpy.
  assert (Hfx : In x (filter p l)) by (apply filter_In; auto).
  assert (Hfy : In y (filter p l)) by (apply filter_In; auto).
  destruct (filter p l) as [|a [|b t]]; simpl in *; [contradiction| |lia].
  destruct Hfx as [<-|[]], Hfy as [<-|[]]. reflexivity.
Qed.

(** X22: after every sequence of requests on a ledger that starts empty,
    the status query of a user on an item reports approved exactly when
    the gate of [sendMessage] finds an approved record for that user on
    that item. *)
Theorem status_tells_gate its n rs user i :
  let db := run (freshDB its n) rs in
  StatusView.status (getChatRequestStatus db user i) = Some approved
  <-> approvedFor db i user.
Proof.
  intros db.
  pose proof (consistent_reachable its n rs) as Hc. fold db in Hc.
  rewrite Forall_forall in Hc.
  assert (Hu : uniqueTriples db).
  { apply uniqueTriples_run; [apply wfLedger_fresh|].
    intros a b c. unfold countRequests. simpl. lia. }
  unfold getChatRequestStatus, approvedFor.
  destruct (find (byItemRequester i user) (chatRequests db)) as [cr|] eqn:Hf; simpl.
  - apply find_some in Hf as [Hin Hb]. unfold byItemRequester in Hb.
    apply andb_prop in Hb as [Hi Hr]. rewrite Nat.eqb_eq in Hi, Hr.
    split.
    + intros [= Hs]. exists cr. auto.
    + intros (cr' & Hin' & Hi' & Hr' & Hs'). f_equal.
      destruct (Hc cr Hin) as (it & s & Hit & Ho & _).
      destruct (Hc cr' Hin') as (it' & s' & Hit' & Ho' & _).
      rewrite Hi in Hit. rewrite Hi', Hit in Hit'. injection Hit' as <-.
      assert (E : cr = cr').
      { apply (filter_at_most_one (byTriple i user (Item.user it)) (chatRequests db));
          auto.
        - apply (Hu i user (Item.user it)).
        - unfold byTriple. now rewrite Hi, Hr, Ho, !Nat.eqb_refl.
        - unfold byTriple. now rewrite Hi', Hr', Ho', !Nat.eqb_refl. }
      now subst cr'.
  - split; [discriminate|]. intros (cr' & Hin' & Hi' & Hr' & _). exfalso.
    pose proof (find_none _ _ Hf cr' Hin') as Hb. unfold byItemRequester in Hb.
    now rewrite Hi', Hr', !Nat.eqb_refl in Hb.
Qed.

(** ** Notifications *)

(** X17: a submission notifies the owner of the item, once and with the
    identifier of the record, exactly when it is accepted and the answer
    is correct; a wrong answer and every refused submission leave the
    notification log as it was. *)
Theorem submission_notifies_owner db user itemId answer :
  notifications (fst (submitVerificationAnswer db user itemId answer))
  = notifications db
    ++ match findById Item._id itemId (items db),
             json (snd (submitVerificationAnswer db user itemId answer)) with
       | Some item, JAnswer true _ id =>
           [Notification.mk (Some (Item.user item)) n_chat_request (Some id) None]
       | _, _ => []
       end.
Proof.
  unfold submitVerificationAnswer.
  destruct (findById Item._id itemId (items db)) as [item|];
    [|simpl; now rewrite app_nil_r].
  destruct (JS.truthy (Item.verificationQuestion item));
    [|simpl; now rewrite app_nil_r].
  simpl negb. cbv iota.
  destruct (user =? Item.user item); [simpl; now rewrite app_nil_r|].
  destruct (find _ (chatRequests db)) as [cr|].
  - destruct (evaluate answer item); simpl; [reflexivity | now rewrite app_nil_r].
  - unfold ChatRequest_create.
    destruct (ChatRequest.failedPaths _); [|simpl; now rewrite app_nil_r].
    destruct (evaluate answer item); simpl; [reflexivity | now rewrite app_nil_r].
Qed.

(** X18: an approval or a decline that is accepted notifies the requester
    of the record, once; the approval names the conversation it answers
    with; a refused approval or decline notifies nobody. *)
Theorem decision_notifies_requester db user chatRequestId :
  (notifications (fst (approveChatRequest db user chatRequestId))
   = notifications db
     ++ match findById ChatRequest._id chatRequestId (chatRequests db),
              json (snd (approveChatRequest db user chatRequestId)) with
        | Some cr, JApproved _ conv =>
            [Notification.mk (Some (ChatRequest.requester cr)) n_chat_approved None
               (Some conv)]
        | _, _ => []
        end)
  /\ (notifications (fst (declineChatRequest db user chatRequestId))
      = notifications db
        ++ match findById ChatRequest._id chatRequestId (chatRequests db),
                 statusCode (snd (declineChatRequest db user chatRequestId)) with
           | Some cr, 200 =>
               [Notification.mk (Some (ChatRequest.requester cr)) n_chat_declined
                  None None]
           | _, _ => []
           end).
Proof.
  split.
  - unfold approveChatRequest.
    destruct (findById ChatRequest._id chatRequestId (chatRequests db)) as [cr|];
      [|simpl; now rewrite app_nil_r].
    destruct (negb (ChatRequest.owner cr =? user)); [simpl; now rewrite app_nil_r|].
    destruct (negb (ChatRequest.answerCorrect cr)); [simpl; now rewrite app_nil_r|].
    destruct (find _ (conversations db)); reflexivity.
  - unfold declineChatRequest.
    destruct (findById ChatRequest._id chatRequestId (chatRequests db)) as [cr|];
      [|simpl; now rewrite app_nil_r].
    destruct (negb (ChatRequest.owner cr =? user)); [simpl; now rewrite app_nil_r|].
    reflexivity.
Qed.

(** ** The registry of sockets *)

Lemma keys_mapSet k v m x :
  In x (map fst (mapSet k v m)) -> x = k \/ In x (map fst m).
Proof.
  induction m as [|[k' v'] m IH]; simpl; [intuition congruence|].
  destruct (String.eqb k' k) eqn:E; simpl.
  - apply String.eqb_eq in E. subst. intuition congruence.
  - intros [H|H]; [tauto|]. destruct (IH H); tauto.
Qed.

Lemma NoDup_mapSet k v m : NoDup (map fst m) -> NoDup (map fst (mapSet k v m)).
Proof.
  induction m as [|[k' v'] m IH]; simpl; intros ND.
  - repeat constructor. simpl. tauto.
  - inversion ND as [|? ? Hk ND']; subst.
    destruct (String.eqb k' k) eqn:E; simpl.
    + apply String.eqb_eq in E. subst. now constructor.
    + constructor; [|auto]. intros H. apply keys_mapSet in H as [H|H]; [|tauto].
      subst. now rewrite String.eqb_refl in E.
Qed.

Lemma In_mapSet k v m e : In e (mapSet k v m) -> e = (k, v) \/ In e m.
Proof.
  induction m as [|[k' v'] m IH]; simpl; [intuition congruence|].
  destruct (String.eqb k' k); simpl; intros [H|H]; auto.
  destruct (IH H); auto.
Qed.

Lemma In_mapDelete k m e : In e (mapDelete k m) -> In e m.
Proof.
  induction m as [|[k' v'] m IH]; simpl; [tauto|].
  destruct (String.eqb k' k); simpl; [tauto|]. intros [H|H]; auto.
Qed.

Lemma NoDup_mapDelete k m : NoDup (map fst m) -> NoDup (map fst (mapDelete k m)).
Proof.
  induction m as [|[k' v'] m IH]; simpl; intros ND; [constructor|].
  inversion ND as [|? ? Hk ND']; subst.
  destruct (String.eqb k' k); simpl; [exact ND'|].
  constructor; [|auto]. intros H. apply Hk.
  apply in_map_iff in H as (e & He & Hin). apply in_map_iff. exists e.
  split; [exact He|]. now apply In_mapDelete in Hin.
Qed.

Lemma wfRegistry_step m e : wfRegistry m -> wfRegistry (socketStep m e).
Proof.
  intros [ND Ht]. destruct e as [s u|s]; simpl.
  - unfold onRegister. destruct (JS.truthy u) eqn:Hu; simpl; [|now split].
    split; [now apply NoDup_mapSet|].
    rewrite Forall_forall in *. intros x Hx.
    apply In_mapSet in Hx as [->|Hx]; auto.
  - unfold onDisconnect.
    destruct (find _ m) as [[k v]|]; [|now split].
    split; [now apply NoDup_mapDelete|].
    rewrite Forall_forall in *. intros x Hx. apply In_mapDelete in Hx. auto.
Qed.

Lemma wfRegistry_run evs : wfRegistry (socketRun evs).
Proof.
  unfold socketRun.
  assert (H : forall m, wfRegistry m -> wfRegistry (fold_left socketStep evs m)).
  { induction evs as [|e evs IH]; simpl; intros m Hm; [exact Hm|].
    apply IH, wfRegistry_step, Hm. }
  apply H. split; constructor.
Qed.

Lemma mapGet_In k v m : NoDup (map fst m) -> In (k, v) m -> mapGet k m = Some v.
Proof.
  induction m as [|[k' v'] m IH]; simpl; intros ND Hin; [contradiction|].
  inversion ND as [|? ? Hk ND']; subst.
  destruct Hin as [[= -> ->]|Hin]; [now rewrite String.eqb_refl|].
  destruct (String.eqb k' k) eqn:E; [|auto].
  apply String.eqb_eq in E. subst. exfalso. apply Hk.
  apply in_map_iff. now exists (k, v).
Qed.

Lemma mapGet_mapDelete_other u k m :
  u <> k -> mapGet u (mapDelete k m) = mapGet u m.
Proof.
  intros Hu. induction m as [|[k' v'] m IH]; simpl; [reflexivity|].
  destruct (String.eqb k' k) eqn:E; simpl.
  - apply String.eqb_eq in E. subst.
    destruct (String.eqb k u) eqn:E'; [|reflexivity].
    apply String.eqb_eq in E'. congruence.
  - now rewrite IH.
Qed.

Lemma mapDelete_split k v m :
  NoDup (map fst m) -> In (k, v) m ->
  exists l1 l2, m = l1 ++ (k, v) :: l2 /\ mapDelete k m = l1 ++ l2.
Proof.
  induction m as [|[k' v'] m IH]; simpl; intros ND Hin; [contradiction|].
  inversion ND as [|? ? Hk ND']; subst.
  destruct Hin as [[= -> ->]|Hin].
  - exists [], m. now rewrite String.eqb_refl.
  - destruct (String.eqb k' k) eqn:E.
    + apply String.eqb_eq in E. subst. exfalso. apply Hk.
      apply in_map_iff. now exists (k, v).
    + destruct (IH ND' Hin) as (l1 & l2 & -> & ->).
      exists ((k', v') :: l1), l2. split; reflexivity.
Qed.

(** X19: in every registry reached from the empty one, the disconnect of
    a socket leaves the users of the other sockets registered, and a
    message to such a user is sent on as before; so a user who registered
    anew on another socket stays reachable when the old socket closes. *)
Theorem disconnect_spares_other_sockets evs s u s' message :
  let m := socketRun evs in
  mapGet u m = Some s' ->
  s' <> s ->
  mapGet u (onDisconnect s m) = Some s'
  /\ onSendMessage u message (onDisconnect s m) = onSendMessage u message m.
Proof.
  intros m Hu Hs. pose proof (wfRegistry_run evs) as [ND _]. fold m in ND.
  assert (E : mapGet u (onDisconnect s m) = mapGet u m).
  { unfold onDisconnect.
    destruct (find _ m) as [[k v]|] eqn:Hf; [|reflexivity].
    apply find_some in Hf as [Hin Hv]. simpl in Hv. apply String.eqb_eq in Hv. subst v.
    apply mapGet_mapDelete_other. intros ->.
    rewrite (mapGet_In _ _ _ ND Hin) in Hu. congruence. }
  split; [now rewrite E|]. unfold onSendMessage. now rewrite E.
Qed.

Lemma disconnect_spares_other_sockets_witness :
  let m := socketRun [EvRegister "s1" "u"; EvRegister "s2" "u"] in
  mapGet "u" (onDisconnect "s1" m) = Some "s2"
  /\ onSendMessage "u" "hi" (onDisconnect "s1" m) = onSendMessage "u" "hi" m.
Proof.
  apply (disconnect_spares_other_sockets
           [EvRegister "s1" "u"; EvRegister "s2" "u"] "s1" "u" "s2" "hi").
  - reflexivity.
  - discriminate.
Defined.

(** X20: in every registry reached from the empty one, the disconnect of
    a socket removes one of the users registered on it and no other
    entry: of several user ids registered on one socket, all but one stay
    registered on it after it closed. *)
Theorem disconnect_removes_one evs s :
  let m := socketRun evs in
  countSocket s (onDisconnect s m) = pred (countSocket s m)
  /\ forall s', s' <> s -> countSocket s' (onDisconnect s m) = countSocket s' m.
Proof.
  intros m. pose proof (wfRegistry_run evs) as [ND _]. fold m in ND.
  unfold onDisconnect, countSocket.
  destruct (find (fun e => String.eqb (snd e) s) m) as [[k v]|] eqn:Hf.
  - apply find_some in Hf as [Hin Hv]. simpl in Hv. apply String.eqb_eq in Hv. subst v.
    destruct (mapDelete_split k s m ND Hin) as (l1 & l2 & -> & ->).
    split.
    + rewrite !filter_app, !length_app. simpl. rewrite String.eqb_refl. simpl. lia.
    + intros s' Hs'. rewrite !filter_app, !length_app. simpl.
      destruct (String.eqb s s') eqn:E; [|reflexivity].
      apply String.eqb_eq in E. congruence.
  - split; [|reflexivity]. now rewrite (find_None_filter _ _ Hf).
Qed.

(** X21: after the registration of a non-empty user id on a socket, a
    message to that user is emitted to that socket and to no other, and
    the messages to the other users go where they went before; the
    registration of an empty user id changes nothing. *)
Theorem register_routes m s u u' message :
  (JS.truthy u = true ->
   onSendMessage u message (onRegister s u m)
   = if JS.truthy s then [receive_message s message] else [])
  /\ (u' <> u ->
      onSendMessage u' message (onRegister s u m) = onSendMessage u' message m)
  /\ onRegister s "" m = m.
Proof.
  assert (Hget : forall k, mapGet k (mapSet u s m)
                           = if String.eqb u k then Some s else mapGet k m).
  { intros k. induction m as [|[k' v'] m IH]; simpl.
    - reflexivity.
    - destruct (String.eqb k' u) eqn:E; simpl.
      + apply String.eqb_eq in E. subst. now destruct (String.eqb u k).
      + rewrite IH. destruct (String.eqb u k) eqn:E'; [|reflexivity].
        apply String.eqb_eq in E'. subst. now rewrite E. }
  repeat split.
  - intros Hu. unfold onSendMessage, onRegister. rewrite Hu. simpl.
    now rewrite Hget, String.eqb_refl.
  - intros Hne. unfold onSendMessage, onRegister.
    destruct (JS.truthy u); simpl; [|reflexivity].
    rewrite Hget. destruct (String.eqb u u') eqn:E; [|reflexivity].
    apply String.eqb_eq in E. congruence.
Qed.

Lemma register_routes_witness :
  (JS.truthy "u" = true ->
   onSendMessage "u" "hi" (onRegister "s2" "u" [("u", "s1"); ("w", "s3")])
   = if JS.truthy "s2" then [receive_message "s2" "hi"] else [])
  /\ ("w" <> "u" ->
      onSendMessage "w" "hi" (onRegister "s2" "u" [("u", "s1"); ("w", "s3")])
      = onSendMessage "w" "hi" [("u", "s1"); ("w", "s3")])
  /\ onRegister "s2" "" [("u", "s1"); ("w", "s3")] = [("u", "s1"); ("w", "s3")].
Proof.
  exact (register_routes [("u", "s1"); ("w", "s3")] "s2" "u" "w" "hi").
Defined.
